(** * Dual-mode fleet-maintenance chatbot: orchestration core

    A shallow embedding of the two entry points of the repository,
    [app.py] (module [App]) and [main.py] (module [Main]), and the
    properties of the orchestration pipeline stated in the specification.

    Python text is a sequence of Unicode code points, so [str] is a list
    of code points and slicing is [firstn].  The three external
    collaborators (completion endpoint, SQL warehouse, document store) are
    oracles that answer as a function of the interaction history, which
    lets one and the same request be answered differently at different
    moments.  Exceptions are explicit: a computation ends in [Ret] or in
    [Raise], and every [try]/[except] of the source is a [try_catch]. *)

From Stdlib Require Import String Ascii NArith Arith Lia Bool List.
From Stdlib Require DecimalString.
Import ListNotations.

Set Implicit Arguments.

(** ** Text *)

Definition char := N.
Definition str := list char.

(** A literal of the source whose characters are all ASCII. *)
Definition py (s : string) : str := map N_of_ascii (list_ascii_of_string s).

Definition nl : char := 10%N.
Definition dquote : char := 34%N.

Definition str_eqb (a b : str) : bool :=
  if list_eq_dec N.eq_dec a b then true else false.

(** [str.isspace()] on one character; the regular-expression class [\s]
    on text patterns tests the same set. *)
Definition is_space (c : char) : bool :=
  ((9 <=? c) && (c <=? 13) || (28 <=? c) && (c <=? 32)
   || (c =? 133) || (c =? 160) || (c =? 5760)
   || (8192 <=? c) && (c <=? 8202)
   || (c =? 8232) || (c =? 8233) || (c =? 8239) || (c =? 8287)
   || (c =? 12288))%N.

(** [s.lstrip()], [s.rstrip()] and [s.strip()] without argument. *)
Fixpoint lstrip (s : str) : str :=
  match s with
  | [] => []
  | c :: t => if is_space c then lstrip t else s
  end.

Definition rstrip (s : str) : str := rev (lstrip (rev s)).

Definition strip (s : str) : str := rstrip (lstrip s).

(** Truthiness of a text: [not s] holds exactly for the empty text. *)
Definition truthy (s : str) : bool :=
  match s with [] => false | _ :: _ => true end.

(** Decimal rendering of a length, as [f"{len(x)}"] prints it. *)
Definition dec (n : nat) : str := py (DecimalString.NilEmpty.string_of_uint (Nat.to_uint n)).

(** ** The cleanup pattern [```sql\s*|\s*```]

    [ws_run s] is the length of the longest whitespace prefix, which is
    what the greedy [\s*] consumes.  Backtracking into [\s*] cannot help
    either alternative: the first one has nothing after [\s*], and the
    second one wants a backtick next, which is no whitespace. *)
Fixpoint ws_run (s : str) : nat :=
  match s with
  | c :: t => if is_space c then S (ws_run t) else 0
  | [] => 0
  end.

Fixpoint starts_with (p s : str) : bool :=
  match p, s with
  | [], _ => true
  | _ :: _, [] => false
  | a :: p', b :: s' => N.eqb a b && starts_with p' s'
  end.

Definition fence : str := py "```".
Definition fence_sql : str := py "```sql".

(** Length of the match of the pattern anchored at the head of [s]; the
    first alternative is tried first. *)
Definition match_len (s : str) : option nat :=
  if starts_with fence_sql s then
    Some (length fence_sql + ws_run (skipn (length fence_sql) s))
  else if starts_with fence (skipn (ws_run s) s) then
    Some (ws_run s + length fence)
  else None.

(** [re.sub(pattern, '', s)]: scan from the left; where the pattern
    matches, drop the matched characters and resume after them, otherwise
    keep the character and move on by one.  A match here is never empty.
    [skip] counts the characters of the current match still to drop. *)
Fixpoint sub_from (skip : nat) (s : str) : str :=
  match s with
  | [] => []
  | c :: t =>
      match skip with
      | S k => sub_from k t
      | O =>
          match match_len s with
          | Some (S k) => sub_from k t
          | _ => c :: sub_from 0 t
          end
      end
  end.

Definition re_sub_fences (s : str) : str := sub_from 0 s.

(** Lines 164-166 of [app.py], 149-153 of [main.py]: the cleanup applied
    to the completion text inside [generate_sql_query]. *)
Definition clean_sql (content : str) : str :=
  strip (re_sub_fences (strip content)).

(** Some literal occurrence of the three-backtick marker. *)
Fixpoint has_fence (s : str) : bool :=
  match s with
  | [] => false
  | _ :: t => starts_with fence s || has_fence t
  end.

(** ** Outcomes, data and the external collaborators *)

(** A call either returns or raises; [e] is the text [str(e)] of the
    exception, the only thing a handler of the source ever reads. *)
Inductive outcome (A : Type) : Type :=
| Ret (a : A)
| Raise (e : str).

Arguments Ret {A} a.
Arguments Raise {A} e.

Definition returns {A : Type} (o : outcome A) : bool :=
  match o with Ret _ => true | Raise _ => false end.

(** One entry of [current_chat]: [{"message": ..., "response": ...}]. *)
Record Turn : Type := { message : str; response : str }.

(** A fetched row: the cells in column order, each as [f"{val}"] prints it. *)
Definition row := list str.

(** The three fixed system instructions.  Their wording is a constant of
    the source that no property below reads, so each is named, not spelt. *)
Inductive system_prompt : Type :=
| SqlGeneratorPrompt
| ResultAnalystPrompt
| MaintenanceAdvisorPrompt.

(** The arguments of [chat.completions.create]; [req_timeout] is [None]
    where the call passes no [timeout]. *)
Record request : Type := {
  req_system : system_prompt;
  req_user : str;
  req_max_tokens : nat;
  req_timeout : option nat
}.

(** The document handed to [insert_one]. *)
Record session_record : Type := {
  userid : str;
  user : str;
  mode : str;
  title : str;
  timestamp : nat;
  conversation : list Turn
}.

(** A document returned by [find]: [title] and [mode] may be absent,
    [doc_timestamp] is the [strftime] rendering, absent when the document
    has no usable ["timestamp"]. *)
Record document : Type := {
  doc_title : option str;
  doc_mode : option str;
  doc_conversation : list Turn;
  doc_timestamp : option str
}.

(** Every call that leaves the process. *)
Inductive event : Type :=
| EvComplete (r : request)
| EvConnect (opened : bool)
| EvCursor (opened : bool)
| EvExecute (sql : str)
| EvFetchall
| EvCursorClose
| EvConnectionClose
| EvInsert (d : session_record)
| EvFind.

(** The process-wide configuration and the behaviour of the collaborators.
    [llm_client] and [collection] are [false] where the module-level
    variable of that name is [None].  Each answer may depend on all earlier
    calls. *)
Record environment : Type := {
  llm_client : bool;
  collection : bool;
  llm_create : list event -> request -> outcome str;
  db_connect : list event -> outcome unit;
  db_cursor : list event -> outcome unit;
  db_execute : list event -> str -> outcome unit;
  db_fetchall : list event -> outcome (list row);
  db_description : list event -> outcome (list str);
  db_cursor_close : list event -> outcome unit;
  db_connection_close : list event -> outcome unit;
  mongo_insert_one : list event -> session_record -> outcome unit;
  mongo_find : list event -> outcome (list document);
  utcnow : list event -> nat
}.

(** The mutable state: the global [current_chat] and the calls made. *)
Record state : Type := { current_chat : list Turn; log : list event }.

Definition record_event (ev : event) (st : state) : state :=
  {| current_chat := current_chat st; log := log st ++ [ev] |}.

(** ** Computations that may raise *)

Definition M (A : Type) : Type := state -> outcome A * state.

Definition ret {A : Type} (a : A) : M A := fun st => (Ret a, st).

Definition raise {A : Type} (e : str) : M A := fun st => (Raise e, st).

Definition bind {A B : Type} (m : M A) (f : A -> M B) : M B :=
  fun st =>
    match m st with
    | (Ret a, st') => f a st'
    | (Raise e, st') => (Raise e, st')
    end.

(** [try: m  except Exception as e: h e]. *)
Definition try_catch {A : Type} (m : M A) (h : str -> M A) : M A :=
  fun st =>
    match m st with
    | (Ret a, st') => (Ret a, st')
    | (Raise e, st') => h e st'
    end.

(** [try: m  finally: f]; an exception of [f] replaces the result of [m]. *)
Definition finally {A : Type} (m : M A) (f : M unit) : M A :=
  fun st =>
    match m st with
    | (r, st') =>
        match f st' with
        | (Ret _, st'') => (r, st'')
        | (Raise e, st'') => (Raise e, st'')
        end
    end.

(** A call to a collaborator: the answer is read off the history and the
    call is recorded. *)
Definition call {A : Type} (answer : list event -> outcome A)
    (ev : outcome A -> event) : M A :=
  fun st => (answer (log st), record_event (ev (answer (log st))) st).

Definition of_outcome {A : Type} (o : outcome A) : M A := fun st => (o, st).

Definition get_current_chat : M (list Turn) :=
  fun st => (Ret (current_chat st), st).

Definition set_current_chat (c : list Turn) : M unit :=
  fun st => (Ret tt, {| current_chat := c; log := log st |}).

(** [current_chat.append({"message": m, "response": r})]. *)
Definition append_turn (m r : str) : M unit :=
  fun st =>
    (Ret tt,
     {| current_chat := current_chat st ++ [{| message := m; response := r |}];
        log := log st |}).

Declare Scope py_scope.
Delimit Scope py_scope with py_m.
Notation "x <- m ;; k" := (bind m (fun x => k))
  (at level 61, m at next level, right associativity) : py_scope.
Notation "m ;;; k" := (bind m (fun _ => k))
  (at level 61, right associativity) : py_scope.

(** ** Generators

    A generator function run to exhaustion: the values it yielded, in
    order, and how it ended. *)
Definition G (Y A : Type) : Type := state -> list Y * outcome A * state.

Definition gret {Y A : Type} (a : A) : G Y A := fun st => ([], Ret a, st).

Definition yield {Y : Type} (y : Y) : G Y unit := fun st => ([y], Ret tt, st).

Definition lift {Y A : Type} (m : M A) : G Y A :=
  fun st => let (r, st') := m st in ([], r, st').

Definition gbind {Y A B : Type} (g : G Y A) (f : A -> G Y B) : G Y B :=
  fun st =>
    match g st with
    | (ys, Ret a, st') =>
        match f a st' with (ys', r, st'') => (ys ++ ys', r, st'') end
    | (ys, Raise e, st') => (ys, Raise e, st')
    end.

(** [try]/[except Exception as e] around a block that yields. *)
Definition gtry {Y A : Type} (g : G Y A) (h : str -> G Y A) : G Y A :=
  fun st =>
    match g st with
    | (ys, Ret a, st') => (ys, Ret a, st')
    | (ys, Raise e, st') =>
        match h e st' with (ys', r, st'') => (ys ++ ys', r, st'') end
    end.

Notation "x <~ g ;; k" := (gbind g (fun x => k))
  (at level 61, g at next level, right associativity) : py_scope.
Notation "g ~;; k" := (gbind g (fun _ => k))
  (at level 61, right associativity) : py_scope.

Definition yields {Y A : Type} (x : list Y * outcome A * state) : list Y :=
  fst (fst x).
Definition ending {Y A : Type} (x : list Y * outcome A * state) : outcome A :=
  snd (fst x).
Definition final {Y A : Type} (x : list Y * outcome A * state) : state :=
  snd x.

(** ** Standard output

    [print] writes to a standard output that encodes UTF-8 strictly, the
    encoding under which the start-up messages of both files can be
    written at all.  Such a stream takes every text but one that holds a
    surrogate code point, on which [print] raises [UnicodeEncodeError];
    [encode_error] is the text of that exception.  The prints modelled are
    those of a text that comes from the user or from the completion
    endpoint, at the place where the text is written first.  Left out are
    a later print of the same text or of a prefix of it (the query in
    [execute_sql_query], the title in [save_chat_session]), the prints of a
    fixed text, and the prints of the text of a caught exception, which is
    taken to be one that the stream can write. *)
Definition is_surrogate (c : char) : bool :=
  ((55296 <=? c) && (c <=? 57343))%N.

Definition printable (s : str) : bool :=
  forallb (fun c => negb (is_surrogate c)) s.

Definition hex_digit (n : N) : char :=
  if (n <? 10)%N then (48 + n)%N else (87 + n)%N.

(** The four lower-case hexadecimal digits of a code point below 65536. *)
Definition hex4 (c : char) : str :=
  [hex_digit (c / 4096); hex_digit ((c / 256) mod 16);
   hex_digit ((c / 16) mod 16); hex_digit (c mod 16)]%N.

(** Number of surrogates at the head of a text. *)
Fixpoint surrogate_run (s : str) : nat :=
  match s with
  | c :: t => if is_surrogate c then S (surrogate_run t) else 0
  | [] => 0
  end.

(** The text of the exception for [s], whose first surrogate is looked for
    from position [i] on: one offending character is named, a run of them is
    given by its first and last position. *)
Fixpoint encode_error_from (i : nat) (s : str) : str :=
  match s with
  | [] => []
  | c :: t =>
      if is_surrogate c then
        match surrogate_run t with
        | O =>
            py "'utf-8' codec can't encode character '\u" ++ hex4 c
            ++ py "' in position " ++ dec i
            ++ py ": surrogates not allowed"
        | S n =>
            py "'utf-8' codec can't encode characters in position " ++ dec i
            ++ py "-" ++ dec (i + S n) ++ py ": surrogates not allowed"
        end
      else encode_error_from (S i) t
  end.

Definition encode_error (s : str) : str := encode_error_from 0 s.

Definition print (s : str) : M unit :=
  fun st =>
    if printable s then (Ret tt, st) else (Raise (encode_error s), st).

(** The first line written by [chat_orchestrator]. *)
Definition debug_line (mode message : str) : str :=
  py "[DEBUG] Mode: " ++ mode ++ py ", Message: " ++ message.

(** ** Constants and helpers shared by the two entry points *)

Definition USERID : str := py "manager123".
Definition USER : str := py "FleetManager".

Definition fleet_manager_mode : str :=
  128084%N :: py " Fleet Manager Mode".

Definition service_unavailable : str :=
  py "The AI service is not available. Please check the configuration.".

Definition no_query : str :=
  py "I couldn't generate a valid query for your question. Please try rephrasing it.".

Definition query_executed (query_results : str) : str :=
  128202%N :: py " Query executed successfully." ++ [nl; nl] ++ query_results.

Definition no_data : str := py "No data found matching your query.".

Definition error_executing (e : str) : str := py "Error executing query: " ++ e.

(** [llm_client.chat.completions.create(...)] followed by
    [.choices[0].message.content]; on a [None] client the attribute access
    raises before anything is sent.  The content is taken to be a text: a
    response whose content is [None] is not covered. *)
Definition create (E : environment) (r : request) : M str :=
  if llm_client E then call (fun l => llm_create E l r) (fun _ => EvComplete r)
  else raise (py "'NoneType' object has no attribute 'chat'").

(** [dict(zip(columns, row)).items()]: a repeated key keeps its first
    position and takes the last value. *)
Fixpoint dict_set (k v : str) (d : list (str * str)) : list (str * str) :=
  match d with
  | [] => [(k, v)]
  | (k', v') :: t =>
      if str_eqb k k' then (k', v) :: t else (k', v') :: dict_set k v t
  end.

Definition dict (kvs : list (str * str)) : list (str * str) :=
  fold_left (fun d kv => dict_set (fst kv) (snd kv) d) kvs [].

(** One row block: a [col: val] line per item, then an empty line. *)
Definition format_row (columns : list str) (r : row) : str :=
  concat (map (fun kv => fst kv ++ py ": " ++ snd kv ++ [nl])
              (dict (combine columns r)))
  ++ [nl].

Definition results_header (n : nat) : str :=
  py "Query Results (" ++ dec n ++ py " rows):" ++ [nl; nl].

Definition truncation_suffix (shown total : nat) : str :=
  nl :: py "(Showing first " ++ dec shown ++ py " of " ++ dec total
     ++ py " results)".

(** [results[0][0]]. *)
Definition first_cell (results : list row) : outcome str :=
  match results with
  | [] => Raise (py "list index out of range")
  | r :: _ =>
      match r with
      | [] => Raise (py "tuple index out of range")
      | v :: _ => Ret v
      end
  end.

(** [columns[0]]. *)
Definition first_column (columns : list str) : outcome str :=
  match columns with
  | [] => Raise (py "list index out of range")
  | c :: _ => Ret c
  end.

(** The tuples built by [get_all_chats]. *)
Definition chat_summary : Type := (str * str * list Turn * str)%type.

Definition default {A : Type} (d : A) (o : option A) : A :=
  match o with Some a => a | None => d end.

(** The list comprehension of [get_all_chats]; [doc["timestamp"]] raises
    on a document without one. *)
Fixpoint summaries (docs : list document) : outcome (list chat_summary) :=
  match docs with
  | [] => Ret []
  | d :: t =>
      match doc_timestamp d with
      | None => Raise (py "'timestamp'")
      | Some ts =>
          match summaries t with
          | Ret l =>
              Ret ((default (py "Untitled") (doc_title d),
                    default (py "Unknown") (doc_mode d),
                    doc_conversation d, ts) :: l)
          | Raise e => Raise e
          end
      end
  end.

(** An entry of the chat widget's history: the user text and the reply,
    which [main.py] leaves [None] until the first yield. *)
Definition entry : Type := (str * option str)%type.

(** [history[-1] = e]. *)
Definition set_last (history : list entry) (e : entry) : list entry :=
  removelast history ++ [e].

(** [collection.insert_one({... "timestamp": datetime.datetime.utcnow(),
    ...})]: the clock is read, then the document is sent. *)
Definition insert_one (E : environment) (doc : nat -> session_record)
  : M unit :=
  fun st =>
    let d := doc (utcnow E (log st)) in
    (mongo_insert_one E (log st) d, record_event (EvInsert d) st).

(** [collection.find({...}).sort("timestamp", -1)], iterated to the end. *)
Definition find_sorted (E : environment) : M (list document) :=
  call (mongo_find E) (fun _ => EvFind).

(** The warehouse calls. *)
Definition connect (E : environment) : M unit :=
  call (db_connect E) (fun o => EvConnect (returns o)).
Definition cursor (E : environment) : M unit :=
  call (db_cursor E) (fun o => EvCursor (returns o)).
Definition execute (E : environment) (sql : str) : M unit :=
  call (fun l => db_execute E l sql) (fun _ => EvExecute sql).
Definition fetchall (E : environment) : M (list row) :=
  call (db_fetchall E) (fun _ => EvFetchall).
Definition description (E : environment) : M (list str) :=
  fun st => (db_description E (log st), st).
Definition cursor_close (E : environment) : M unit :=
  call (db_cursor_close E) (fun _ => EvCursorClose).
Definition connection_close (E : environment) : M unit :=
  call (db_connection_close E) (fun _ => EvConnectionClose).

(** ** [app.py] *)

Module App.
Section Program.

Variable E : environment.

Local Open Scope py_scope.

(** [save_chat_session], lines 100-114.  The title printed at line 112 is
    the head of a message that [chat_orchestrator] printed before it
    appended the Turn. *)
Definition save_chat_session (title : str) (chat : list Turn) (mode : str)
  : M unit :=
  match chat with
  | _ :: _ =>
      if collection E then
        try_catch
          (insert_one E (fun now =>
             {| userid := USERID; user := USER; mode := mode; title := title;
                timestamp := now; conversation := chat |}))
          (fun _ => ret tt)
      else ret tt
  | [] => ret tt
  end.

(** [get_all_chats], lines 116-125. *)
Definition get_all_chats : M (list chat_summary) :=
  if collection E then
    try_catch
      (docs <- find_sorted E ;; of_outcome (summaries docs))
      (fun _ => ret [])
  else ret [].

(** [show_previous_chats], lines 127-133. *)
Definition show_previous_chats : M str :=
  chats <- get_all_chats ;;
  let markdown :=
    fold_left
      (fun markdown (c : chat_summary) =>
         let '(title, mode, _, timestamp) := c in
         markdown ++ 8226%N :: py " **" ++ title ++ py "**  " ++ [nl]
                  ++ py "*" ++ mode ++ py "* - " ++ timestamp ++ [nl; nl])
      chats [] in
  ret (if truthy markdown then markdown else py "No previous chats found.").

(** [generate_sql_query], lines 136-171; [None] is the failure signal.
    The question is printed before the [try], the cleaned query inside
    it. *)
Definition generate_sql_query (user_question : str) : M (option str) :=
  print (py "[DEBUG] Generating SQL for question: " ++ user_question) ;;;
  try_catch
    (content <- create E {| req_system := SqlGeneratorPrompt;
                            req_user := user_question;
                            req_max_tokens := 300;
                            req_timeout := Some 20 |} ;;
     let sql_query := clean_sql content in
     print (py "[DEBUG] Generated SQL: " ++ sql_query) ;;;
     ret (Some sql_query))
    (fun _ => ret None).

(** Lines 190-208 of [execute_sql_query]: what is returned once the rows
    and the column names are there. *)
Definition format_results (columns : list str) (results : list row)
  : outcome (str * list row) :=
  match results with
  | [] => Ret (no_data, [])
  | _ :: _ =>
      let formatted_results := results_header (length results) in
      if Nat.eqb (length results) 1 && Nat.eqb (length columns) 1 then
        match first_column columns, first_cell results with
        | Ret c, Ret v =>
            Ret (formatted_results ++ c ++ py ": " ++ v ++ [nl], results)
        | Raise e, _ => Raise e
        | _, Raise e => Raise e
        end
      else
        let display_limit := Nat.min 50 (length results) in
        let formatted_results :=
          formatted_results
          ++ concat (map (format_row columns) (firstn display_limit results)) in
        Ret (if display_limit <? length results
             then formatted_results
                  ++ truncation_suffix display_limit (length results)
             else formatted_results,
             results)
  end.

(** The body of the [try] of [execute_sql_query], lines 180-208, together
    with the values the locals [connection] and [cursor] have when it is
    left ([false] for [None]). *)
Definition query (sql_query : str)
  : state -> bool * bool * outcome (str * list row) * state :=
  fun st =>
    match connect E st with
    | (Raise e, st1) => (false, false, Raise e, st1)
    | (Ret _, st1) =>
        match cursor E st1 with
        | (Raise e, st2) => (true, false, Raise e, st2)
        | (Ret _, st2) =>
            let '(r, st3) :=
              (execute E sql_query ;;;
               results <- fetchall E ;;
               columns <- description E ;;
               of_outcome (format_results columns results)) st2 in
            (true, true, r, st3)
        end
    end.

(** [execute_sql_query], lines 173-222: the [except] clause turns an
    exception of the body into the error pair, the [finally] clause closes
    what was opened, each close under its own bare [except: pass].  The
    print of line 175 writes a query that its one caller has from
    [generate_sql_query], where the same text was printed before. *)
Definition execute_sql_query (sql_query : str) : M (str * list row) :=
  fun st =>
    let '(connection, cursor, r, st1) := query sql_query st in
    finally
      (try_catch (of_outcome r) (fun e => ret (error_executing e, [])))
      ((if cursor then try_catch (cursor_close E) (fun _ => ret tt)
        else ret tt) ;;;
       (if connection then try_catch (connection_close E) (fun _ => ret tt)
        else ret tt))
      st1.

(** The user prompt of [interpret_sql_results], lines 234-244. *)
Definition interpret_user_prompt (user_question sql_query query_results : str)
  : str :=
  [nl] ++ py "    User's Question: " ++ [dquote] ++ user_question ++ [dquote; nl]
  ++ py "   " ++ [nl]
  ++ py "    SQL Query Executed:" ++ [nl]
  ++ py "    " ++ sql_query ++ [nl]
  ++ py "   " ++ [nl]
  ++ py "    Query Results:" ++ [nl]
  ++ py "    " ++ firstn 2000 query_results ++ [nl]
  ++ py "   " ++ [nl]
  ++ py "    Please interpret these results and answer the user's question clearly."
  ++ [nl] ++ py "    ".

(** [interpret_sql_results], lines 224-260. *)
Definition interpret_sql_results (user_question sql_query query_results : str)
  : M str :=
  try_catch
    (create E {| req_system := ResultAnalystPrompt;
                 req_user := interpret_user_prompt user_question sql_query
                                                   query_results;
                 req_max_tokens := 500;
                 req_timeout := Some 25 |})
    (fun _ =>
       ret (py "Here are the query results:" ++ [nl; nl]
            ++ firstn 1000 query_results)).

Definition complete_response (sql_query final_answer : str) : str :=
  py "**Query Executed:**" ++ [nl] ++ py "```sql" ++ [nl] ++ sql_query ++ [nl]
  ++ py "```" ++ [nl; nl] ++ final_answer.

Definition fleet_error (e : str) : str :=
  10060%N :: py " Error: " ++ e ++ [nl; nl] ++ py "Please try again.".

Definition user_mode_error : str :=
  py "I'm having trouble processing your request. Please try again.".

(** [if not sql_query]: [None] and the empty text are both falsy. *)
Definition usable (sql_query : option str) : option str :=
  match sql_query with
  | Some (c :: t) => Some (c :: t)
  | _ => None
  end.

(** [chat_orchestrator], lines 263-339.  The first statement prints the
    mode and the message outside every [try]; the replies are printed
    inside the [try] blocks, before they are appended. *)
Definition chat_orchestrator (message : str) (history : list entry)
    (mode : str) : G str unit :=
  lift (print (debug_line mode message)) ~;;
  if negb (llm_client E) then yield service_unavailable
  else if str_eqb mode fleet_manager_mode then
    gtry
      (sql_query <~ lift (generate_sql_query message) ;;
       match usable sql_query with
       | None =>
           lift (append_turn message no_query) ~;; yield no_query
       | Some sql_query =>
           qr <~ lift (execute_sql_query sql_query) ;;
           let '(query_results, raw_data) := qr in
           match raw_data with
           | [] =>
               let response := query_executed query_results in
               lift (append_turn message response) ~;; yield response
           | _ :: _ =>
               final_answer <~
                 lift (interpret_sql_results message sql_query query_results) ;;
               let complete_response :=
                 complete_response sql_query final_answer in
               lift (print complete_response) ~;;
               lift (append_turn message complete_response) ~;;
               yield complete_response
           end
       end)
      (fun e =>
         let error_msg := fleet_error e in
         lift (append_turn message error_msg) ~;; yield error_msg)
  else
    gtry
      (final_answer <~
         lift (create E {| req_system := MaintenanceAdvisorPrompt;
                           req_user := message;
                           req_max_tokens := 500;
                           req_timeout := Some 30 |}) ;;
       lift (print final_answer) ~;;
       lift (append_turn message final_answer) ~;; yield final_answer)
      (fun _ =>
         lift (append_turn message user_mode_error) ~;; yield user_mode_error).

(** [respond], lines 342-357.  The caller's list is never written to:
    [history + [...]] builds a new one.  Each yield hands out the list as
    it is at that moment, with the cleared input box. *)
Definition respond (message : str) (history : list entry) (mode : str)
  : G (list entry * str) unit :=
  if negb (truthy (strip message)) then yield (history, [])
  else
    fun st =>
      let history := history ++ [(message, Some [])] in
      let '(partials, r, st') :=
        chat_orchestrator message (removelast history) mode st in
      let shown :=
        map (fun partial_response =>
               (set_last history (message, Some partial_response), []))
            partials in
      match r with
      | Ret _ =>
          let history :=
            match rev partials with
            | last :: _ => set_last history (message, Some last)
            | [] => history
            end in
          (shown ++ [(history, [])], Ret tt, st')
      | Raise e => (shown, Raise e, st')
      end.

(** [start_new_chat], lines 359-368: the new history and the refreshed
    list of earlier chats. *)
Definition start_new_chat (history : list entry) (mode : str)
  : M (list entry * str) :=
  chat <- get_current_chat ;;
  match chat with
  | first :: _ => save_chat_session (firstn 50 (message first)) chat mode
  | [] => ret tt
  end ;;;
  set_current_chat [] ;;;
  previous <- show_previous_chats ;;
  ret ([], previous).

(** [toggle_sidebar], lines 370-374: the new visibility, the visibility
    update of the panel and its new content. *)
Definition toggle_sidebar (current_visible : bool) : M (bool * bool * str) :=
  let new_state := negb current_visible in
  content_update <- (if new_state then show_previous_chats else ret []) ;;
  ret (new_state, new_state, content_update).

End Program.
End App.

(** ** [main.py] *)

Module Main.
Section Program.

Variable E : environment.

Local Open Scope py_scope.

(** [save_chat_session], lines 84-95; [collection] always exists here and
    nothing guards the store call.  The title printed at line 95 is the
    head of a message that [chat_orchestrator] printed before it appended
    the Turn. *)
Definition save_chat_session (title : str) (chat : list Turn) (mode : str)
  : M unit :=
  match chat with
  | _ :: _ =>
      insert_one E (fun now =>
        {| userid := USERID; user := USER; mode := mode; title := title;
           timestamp := now; conversation := chat |})
  | [] => ret tt
  end.

(** [get_all_chats], lines 97-100. *)
Definition get_all_chats : M (list chat_summary) :=
  docs <- find_sorted E ;; of_outcome (summaries docs).

(** [show_previous_chats], lines 102-108. *)
Definition show_previous_chats : M str :=
  chats <- get_all_chats ;;
  let markdown :=
    fold_left
      (fun markdown (c : chat_summary) =>
         let '(title, mode, _, _) := c in
         markdown ++ 8226%N :: py " **" ++ title ++ py "**  " ++ [nl]
                  ++ py "*" ++ mode ++ py "*" ++ [nl; nl])
      chats [] in
  ret (if truthy markdown then markdown else py "No previous chats found.").

(** [generate_sql_query], lines 112-159.  The question is printed before
    the [try], the cleaned query inside it. *)
Definition generate_sql_query (user_question : str) : M (option str) :=
  print (py "[DEBUG] Generating SQL for question: " ++ user_question) ;;;
  try_catch
    (content <- create E {| req_system := SqlGeneratorPrompt;
                            req_user := user_question;
                            req_max_tokens := 300;
                            req_timeout := None |} ;;
     let sql_query := clean_sql content in
     print (py "[DEBUG] Generated SQL: " ++ sql_query) ;;;
     ret (Some sql_query))
    (fun _ => ret None).

(** Lines 175-192 of [execute_sql_query]. *)
Definition format_results (columns : list str) (results : list row)
  : outcome (str * list row) :=
  match results with
  | [] => Ret (no_data, [])
  | _ :: _ =>
      let formatted_results := results_header (length results) in
      if Nat.eqb (length results) 1 && Nat.eqb (length columns) 1 then
        match first_column columns, first_cell results with
        | Ret c, Ret v =>
            Ret (formatted_results ++ c ++ py ": " ++ v ++ [nl], results)
        | Raise e, _ => Raise e
        | _, Raise e => Raise e
        end
      else
        let formatted_results :=
          formatted_results
          ++ concat (map (format_row columns) (firstn 100 results)) in
        Ret (if 100 <? length results
             then formatted_results ++ truncation_suffix 100 (length results)
             else formatted_results,
             results)
  end.

(** [with resource as x: body]: the resource is acquired, the body runs,
    and the context manager's exit, which for the connector's connection
    and cursor is [close()], runs on every way out of the body; an
    exception of the exit replaces the result of the body. *)
Definition with_ {A : Type} (acquire close : M unit) (body : M A) : M A :=
  acquire ;;; finally body close.

(** The body of the [try] of [execute_sql_query], lines 165-192. *)
Definition query (sql_query : str) : M (str * list row) :=
  with_ (connect E) (connection_close E)
    (with_ (cursor E) (cursor_close E)
       (execute E sql_query ;;;
        results <- fetchall E ;;
        columns <- description E ;;
        of_outcome (format_results columns results))).

(** [execute_sql_query], lines 161-196.  The print of line 163 writes a
    query that its one caller has from [generate_sql_query], where the same
    text was printed before. *)
Definition execute_sql_query (sql_query : str) : M (str * list row) :=
  try_catch (query sql_query) (fun e => ret (error_executing e, [])).

(** The user prompt of [interpret_sql_results], lines 209-220. *)
Definition interpret_user_prompt (user_question sql_query query_results : str)
  : str :=
  [nl] ++ py "    User's Question: " ++ [dquote] ++ user_question ++ [dquote; nl]
  ++ py "   " ++ [nl]
  ++ py "    SQL Query Executed:" ++ [nl]
  ++ py "    " ++ sql_query ++ [nl]
  ++ py "   " ++ [nl]
  ++ py "    Query Results:" ++ [nl]
  ++ py "    " ++ query_results ++ [nl]
  ++ py "   " ++ [nl]
  ++ py "    Please interpret these results and answer the user's question in a clear, professional manner."
  ++ [nl]
  ++ py "    Provide insights and actionable information based on the data."
  ++ [nl] ++ py "    ".

(** [interpret_sql_results], lines 198-235. *)
Definition interpret_sql_results (user_question sql_query query_results : str)
  : M str :=
  try_catch
    (create E {| req_system := ResultAnalystPrompt;
                 req_user := interpret_user_prompt user_question sql_query
                                                   query_results;
                 req_max_tokens := 600;
                 req_timeout := None |})
    (fun _ => ret query_results).

Definition analyzing_question : str :=
  128269%N :: py " Analyzing your question and generating database query...".

Definition executing_query (sql_query : str) : str :=
  9881%N :: 65039%N :: py " Executing query..." ++ [nl; nl] ++ py "`"
    ++ sql_query ++ py "`" ++ [nl; nl].

Definition analyzing_results : str := 128202%N :: py " Analyzing results...".

Definition user_mode_error : str :=
  py "I'm sorry, I'm having trouble processing your request. Please try again later.".

Definition usable (sql_query : option str) : option str :=
  match sql_query with
  | Some (c :: t) => Some (c :: t)
  | _ => None
  end.

(** [chat_orchestrator], lines 239-324.  The first statement prints the
    mode and the message outside every [try]; the Fleet Manager branch has
    no [try] of its own, so the print of the narrated answer at line 276 is
    unguarded too. *)
Definition chat_orchestrator (message : str) (history : list entry)
    (mode : str) : G str unit :=
  lift (print (debug_line mode message)) ~;;
  if negb (llm_client E) then yield service_unavailable
  else if str_eqb mode fleet_manager_mode then
    yield analyzing_question ~;;
    sql_query <~ lift (generate_sql_query message) ;;
    match usable sql_query with
    | None => lift (append_turn message no_query) ~;; yield no_query
    | Some sql_query =>
        yield (executing_query sql_query) ~;;
        qr <~ lift (execute_sql_query sql_query) ;;
        let '(query_results, raw_data) := qr in
        match raw_data with
        | [] =>
            let response := query_executed query_results in
            lift (append_turn message response) ~;; yield response
        | _ :: _ =>
            yield analyzing_results ~;;
            final_answer <~
              lift (interpret_sql_results message sql_query query_results) ;;
            lift (print final_answer) ~;;
            lift (append_turn message final_answer) ~;; yield final_answer
        end
    end
  else
    gtry
      (final_answer <~
         lift (create E {| req_system := MaintenanceAdvisorPrompt;
                           req_user := message;
                           req_max_tokens := 500;
                           req_timeout := None |}) ;;
       lift (print final_answer) ~;;
       lift (append_turn message final_answer) ~;; yield final_answer)
      (fun _ =>
         lift (append_turn message user_mode_error) ~;; yield user_mode_error).

(** [respond], lines 328-337.  The function is a generator, so the early
    [return history, ""] yields nothing.  Otherwise the caller's list is
    extended in place and its last entry overwritten at every response;
    the result is the content of that list at the end. *)
Definition respond (message : str) (history : list entry) (mode : str)
  : G (list entry * str) (list entry) :=
  if negb (truthy (strip message)) then gret history
  else
    fun st =>
      let history := history ++ [(message, None)] in
      let '(responses, r, st') := chat_orchestrator message history mode st in
      let shown :=
        map (fun response => (set_last history (message, Some response), []))
            responses in
      match r with
      | Ret _ =>
          (shown,
           Ret match rev responses with
               | last :: _ => set_last history (message, Some last)
               | [] => history
               end,
           st')
      | Raise e => (shown, Raise e, st')
      end.

Definition welcome_msg : str :=
  py "<div style='text-align:center; font-size:20px; font-weight:bold; color:#2196F3;'>"
  ++ 10024%N :: py " New chat started! How can I help you today? "
  ++ 10024%N :: py "</div>".

(** [start_new_chat], lines 339-351. *)
Definition start_new_chat (history : list entry) (mode : str)
  : M (list entry * str) :=
  chat <- get_current_chat ;;
  match chat with
  | first :: _ => save_chat_session (firstn 50 (message first)) chat mode
  | [] => ret tt
  end ;;;
  set_current_chat [] ;;;
  previous <- show_previous_chats ;;
  ret ([(welcome_msg, Some [])], previous).

(** [toggle_sidebar], lines 353-357. *)
Definition toggle_sidebar (current_visible : bool) : M (bool * bool * str) :=
  let new_state := negb current_visible in
  content_update <- (if new_state then show_previous_chats else ret []) ;;
  ret (new_state, new_state, content_update).

End Program.
End Main.

(** ** Reading the trace *)

Definition count (p : event -> bool) (l : list event) : nat :=
  length (filter p l).






(** A completion call made by the result interpreter. *)
Definition is_narration (ev : event) : bool :=
  match ev with
  | EvComplete r =>
      match req_system r with ResultAnalystPrompt => true | _ => false end
  | _ => false
  end.




(** The first and last character of a text are no whitespace. *)
Definition head_ok (s : str) : bool :=
  match s with [] => true | c :: _ => negb (is_space c) end.

(** The warehouse serves a query made after the calls [l]: connecting,
    opening a cursor and executing return, the rows [results] are fetched
    and the cursor describes the columns [columns]. *)
Definition fetched (E : environment) (sql : str) (l : list event)
    (columns : list str) (results : list row) : Prop :=
  db_connect E l = Ret tt
  /\ db_cursor E (l ++ [EvConnect true]) = Ret tt
  /\ db_execute E (l ++ [EvConnect true; EvCursor true]) sql = Ret tt
  /\ db_fetchall E (l ++ [EvConnect true; EvCursor true; EvExecute sql])
     = Ret results
  /\ db_description E
       (l ++ [EvConnect true; EvCursor true; EvExecute sql; EvFetchall])
     = Ret columns.

(** After such a query both [close] calls return. *)
Definition closed_quietly (E : environment) (sql : str) (l : list event)
  : Prop :=
  db_cursor_close E
    (l ++ [EvConnect true; EvCursor true; EvExecute sql; EvFetchall])
  = Ret tt
  /\ db_connection_close E
       (l ++ [EvConnect true; EvCursor true; EvExecute sql; EvFetchall;
              EvCursorClose])
     = Ret tt.

(** What the [except] clause of the executor makes of an outcome. *)
Definition or_error_pair (o : outcome (str * list row))
  : outcome (str * list row) :=
  match o with
  | Ret v => Ret v
  | Raise e => Ret (error_executing e, [])
  end.

(** A call to the completion endpoint, a connection attempt, a call to the
    store. *)
Definition is_completion (ev : event) : bool :=
  match ev with EvComplete _ => true | _ => false end.

Definition is_connect (ev : event) : bool :=
  match ev with EvConnect _ => true | _ => false end.

Definition is_store (ev : event) : bool :=
  match ev with EvInsert _ | EvFind => true | _ => false end.

(** The text holds no backtick. *)
Definition no_backtick (s : str) : bool :=
  forallb (fun c => negb (N.eqb c 96)) s.

(** The document has a usable ["timestamp"]. *)
Definition has_timestamp (d : document) : bool :=
  match doc_timestamp d with Some _ => true | None => false end.

(** The line [f"{col}: {val}\n"] of a row block. *)
Definition cell_line (kv : str * str) : str :=
  fst kv ++ py ": " ++ snd kv ++ [nl].

(** The calls added to the trace [l] to reach [l'] stay within a budget:
    at most [c] completion calls, at most [k] connection attempts and no
    call to the store. *)
Definition spends (c k : nat) (l l' : list event) : Prop :=
  exists d,
    l' = l ++ d
    /\ count is_completion d <= c
    /\ count is_connect d <= k
    /\ count is_store d = 0.

(** The user text with the reply shown for it, as one history snapshot
    with the cleared input box. *)
Definition shown (history : list entry) (message reply : str)
  : list entry * str :=
  (history ++ [(message, Some reply)], []).



(** The three requests sent by [app.py] and by [main.py]. *)
Definition app_advice_request (message : str) : request :=
  {| req_system := MaintenanceAdvisorPrompt; req_user := message;
     req_max_tokens := 500; req_timeout := Some 30 |}.

Definition main_advice_request (message : str) : request :=
  {| req_system := MaintenanceAdvisorPrompt; req_user := message;
     req_max_tokens := 500; req_timeout := None |}.

Definition app_sql_request (question : str) : request :=
  {| req_system := SqlGeneratorPrompt; req_user := question;
     req_max_tokens := 300; req_timeout := Some 20 |}.

Definition main_sql_request (question : str) : request :=
  {| req_system := SqlGeneratorPrompt; req_user := question;
     req_max_tokens := 300; req_timeout := None |}.


(** ** Sample environments *)

(** Every collaborator answers: the completion endpoint answers a
    synthesis request with a fenced query and any other request with a
    sentence, the warehouse returns the one row [count = 7], the store
    accepts the write and lists nothing. *)
Definition healthy : environment :=
  {| llm_client := true;
     collection := true;
     llm_create := fun _ r =>
       match req_system r with
       | SqlGeneratorPrompt =>
           Ret (py "```sql" ++ [nl] ++ py "SELECT COUNT(*) as count FROM t"
                ++ [nl] ++ py "```")
       | _ => Ret (py "Seven trucks need maintenance.")
       end;
     db_connect := fun _ => Ret tt;
     db_cursor := fun _ => Ret tt;
     db_execute := fun _ _ => Ret tt;
     db_fetchall := fun _ => Ret [[py "7"]];
     db_description := fun _ => Ret [py "count"];
     db_cursor_close := fun _ => Ret tt;
     db_connection_close := fun _ => Ret tt;
     mongo_insert_one := fun _ _ => Ret tt;
     mongo_find := fun _ => Ret [];
     utcnow := fun l => length l |}.

(** Every call to a collaborator raises, the clients exist. *)
Definition all_down : environment :=
  {| llm_client := true;
     collection := true;
     llm_create := fun _ _ => Raise (py "timeout");
     db_connect := fun _ => Raise (py "connection refused");
     db_cursor := fun _ => Raise (py "no cursor");
     db_execute := fun _ _ => Raise (py "syntax error");
     db_fetchall := fun _ => Raise (py "fetch failed");
     db_description := fun _ => Raise (py "no description");
     db_cursor_close := fun _ => Raise (py "close failed");
     db_connection_close := fun _ => Raise (py "close failed");
     mongo_insert_one := fun _ _ => Raise (py "store down");
     mongo_find := fun _ => Raise (py "store down");
     utcnow := fun l => length l |}.






(** [healthy] with a store that lists two sessions, the second without a
    timestamp. *)
Definition one_bad_document : environment :=
  {| llm_client := true;
     collection := true;
     llm_create := llm_create healthy;
     db_connect := db_connect healthy;
     db_cursor := db_cursor healthy;
     db_execute := db_execute healthy;
     db_fetchall := db_fetchall healthy;
     db_description := db_description healthy;
     db_cursor_close := db_cursor_close healthy;
     db_connection_close := db_connection_close healthy;
     mongo_insert_one := mongo_insert_one healthy;
     mongo_find := fun _ =>
       Ret [{| doc_title := Some (py "Tires"); doc_mode := None;
               doc_conversation := []; doc_timestamp := Some (py "2025-01-01 10:00") |};
            {| doc_title := None; doc_mode := None;
               doc_conversation := []; doc_timestamp := None |}];
     utcnow := utcnow healthy |}.

Definition fresh : state := {| current_chat := []; log := [] |}.

(** The mode the selector starts with, and a message of one character that
    no UTF-8 stream can write. *)
Definition user_mode : str := 128100%N :: py " User Mode".

Definition lone_surrogate : str := [55296%N].

(** [healthy] with a completion endpoint that narrates and advises with
    that one character. *)
Definition garbled : environment :=
  {| llm_client := true;
     collection := true;
     llm_create := fun _ r =>
       match req_system r with
       | SqlGeneratorPrompt => llm_create healthy [] r
       | _ => Ret lone_surrogate
       end;
     db_connect := db_connect healthy;
     db_cursor := db_cursor healthy;
     db_execute := db_execute healthy;
     db_fetchall := db_fetchall healthy;
     db_description := db_description healthy;
     db_cursor_close := db_cursor_close healthy;
     db_connection_close := db_connection_close healthy;
     mongo_insert_one := mongo_insert_one healthy;
     mongo_find := mongo_find healthy;
     utcnow := utcnow healthy |}.

Definition one_turn : state :=
  {| current_chat :=
       [{| message := py "When should I rotate my tires?";
           response := py "Every 10000 km." |}];
     log := [] |}.

(** * Properties *)

(** ** Text *)

Lemma lstrip_head_ok s : head_ok (lstrip s) = true.
Proof.
  induction s as [|c t IH]; simpl; [reflexivity|].
  destruct (is_space c) eqn:Hc; [exact IH|]. simpl. now rewrite Hc.
Qed.

Lemma lstrip_fixed s : head_ok s = true -> lstrip s = s.
Proof.
  destruct s as [|c t]; simpl; [reflexivity|].
  now destruct (is_space c).
Qed.

Lemma lstrip_suffix s : exists p, s = p ++ lstrip s.
Proof.
  induction s as [|c t [p IH]]; simpl.
  - now exists [].
  - destruct (is_space c).
    + exists (c :: p). simpl. now f_equal.
    + now exists [].
Qed.

Lemma lstrip_spaces s : forallb is_space s = true -> lstrip s = [].
Proof.
  induction s as [|c t IH]; simpl; [reflexivity|].
  intros H. apply andb_true_iff in H as [Hc Ht]. rewrite Hc. now apply IH.
Qed.

Lemma rstrip_prefix s : exists q, s = rstrip s ++ q.
Proof.
  unfold rstrip. destruct (lstrip_suffix (rev s)) as [p Hp].
  exists (rev p). rewrite <- rev_app_distr, <- Hp. now rewrite rev_involutive.
Qed.

Lemma rstrip_head_ok s : head_ok s = true -> head_ok (rstrip s) = true.
Proof.
  intros H. destruct (rstrip_prefix s) as [q Hq].
  destruct (rstrip s) as [|c t]; [reflexivity|].
  rewrite Hq in H. exact H.
Qed.

Lemma rstrip_fixed s : head_ok (rev s) = true -> rstrip s = s.
Proof.
  intros H. unfold rstrip. rewrite lstrip_fixed by exact H. apply rev_involutive.
Qed.

Lemma strip_fixed s :
  head_ok s = true -> head_ok (rev s) = true -> strip s = s.
Proof.
  intros H1 H2. unfold strip. rewrite (lstrip_fixed s H1). now apply rstrip_fixed.
Qed.

Lemma strip_ends s :
  head_ok (strip s) = true /\ head_ok (rev (strip s)) = true.
Proof.
  unfold strip. split.
  - apply rstrip_head_ok, lstrip_head_ok.
  - unfold rstrip. rewrite rev_involutive. apply lstrip_head_ok.
Qed.

Lemma strip_idempotent s : strip (strip s) = strip s.
Proof. destruct (strip_ends s). now apply strip_fixed. Qed.

Lemma strip_spaces s : forallb is_space s = true -> strip s = [].
Proof. intros H. unfold strip. now rewrite (lstrip_spaces s H). Qed.

Lemma starts_with_fence_sql s :
  starts_with fence_sql s = true -> starts_with fence s = true.
Proof.
  destruct s as [|a [|b [|c t]]]; simpl; try discriminate.
  - now rewrite andb_false_r.
  - now rewrite !andb_false_r.
  - intros H. repeat (apply andb_true_iff in H as [? H]).
    now repeat (apply andb_true_iff; split).
Qed.

Lemma starts_with_has_fence s : starts_with fence s = true -> has_fence s = true.
Proof.
  destruct s as [|c t]; [discriminate|]. intros H.
  change (has_fence (c :: t)) with (starts_with fence (c :: t) || has_fence t).
  now rewrite H.
Qed.

Lemma has_fence_skipn n s : has_fence (skipn n s) = true -> has_fence s = true.
Proof.
  revert s. induction n as [|n IH]; intros s; [now simpl|].
  destruct s as [|c t]; [now simpl|].
  intros H. change (has_fence (c :: t)) with (starts_with fence (c :: t) || has_fence t).
  rewrite (IH t H). apply orb_true_r.
Qed.

Lemma match_len_no_fence s : has_fence s = false -> match_len s = None.
Proof.
  intros H. unfold match_len.
  destruct (starts_with fence_sql s) eqn:H1.
  - apply starts_with_fence_sql, starts_with_has_fence in H1. congruence.
  - destruct (starts_with fence (skipn (ws_run s) s)) eqn:H2; [|reflexivity].
    apply starts_with_has_fence, has_fence_skipn in H2. congruence.
Qed.

Lemma re_sub_no_fence s : has_fence s = false -> re_sub_fences s = s.
Proof.
  unfold re_sub_fences. induction s as [|c t IH]; [reflexivity|].
  intros H. pose proof (match_len_no_fence _ H) as Hm.
  change (has_fence (c :: t)) with (starts_with fence (c :: t) || has_fence t) in H.
  apply orb_false_iff in H as [_ Ht].
  change (sub_from 0 (c :: t)) with
    (match match_len (c :: t) with Some (S k) => sub_from k t | _ => c :: sub_from 0 t end).
  rewrite Hm. f_equal. now apply IH.
Qed.

(** ** The cleanup step of the synthesizer *)

(** C7, as stated, fails: the cleanup of the text made of two backticks, a
    blank and four backticks is the three-backtick marker itself, which a
    second cleanup removes. *)
Lemma clean_sql_not_idempotent :
  clean_sql (py "`` ````") = py "```"
  /\ clean_sql (clean_sql (py "`` ````")) <> clean_sql (py "`` ````").
Proof. split; [reflexivity | vm_compute; discriminate]. Qed.

(** C7, amended: the cleanup step returns unchanged every text that holds no
    three-backtick marker and neither starts nor ends with whitespace; hence
    a second cleanup of one of its own outputs changes nothing whenever that
    output holds no three-backtick marker. *)
Theorem clean_sql_stable (s : str) :
  (has_fence s = false -> strip s = s -> clean_sql s = s)
  /\ (has_fence (clean_sql s) = false ->
      clean_sql (clean_sql s) = clean_sql s).
Proof.
  assert (fixed : forall t, has_fence t = false -> strip t = t ->
                            clean_sql t = t).
  { intros t Hf Hs. unfold clean_sql. rewrite Hs.
    now rewrite (re_sub_no_fence t Hf). }
  split; [apply fixed|].
  intros Hf. apply fixed; [exact Hf|].
  unfold clean_sql. apply strip_idempotent.
Qed.

Lemma clean_sql_stable_witness :
  let fenced := py "```sql" ++ [nl] ++ py "SELECT 1" ++ [nl] ++ py "```" in
  (has_fence (py "SELECT 1") = false /\ strip (py "SELECT 1") = py "SELECT 1"
   /\ clean_sql (py "SELECT 1") = py "SELECT 1")
  /\ (has_fence (clean_sql fenced) = false
      /\ clean_sql (clean_sql fenced) = clean_sql fenced).
Proof.
  intros fenced. split.
  - split; [reflexivity|]. split; [reflexivity|].
    apply (proj1 (clean_sql_stable (py "SELECT 1"))); reflexivity.
  - split; [reflexivity|].
    apply (proj2 (clean_sql_stable fenced)); reflexivity.
Defined.

(** ** The respond handler *)

(** C9: on a message made of whitespace only, the empty one included, the
    handler calls no collaborator, appends no Turn and leaves the history as
    it is: the state is unchanged, [app.py] hands back the history it was
    given and [main.py] yields nothing and does not write to the list. *)
Theorem respond_blank (E : environment) (message : str)
    (history : list entry) (mode : str) (st : state) :
  forallb is_space message = true ->
  App.respond E message history mode st = ([(history, [])], Ret tt, st)
  /\ Main.respond E message history mode st = ([], Ret history, st).
Proof.
  intros H. unfold App.respond, Main.respond.
  rewrite (strip_spaces message H). split; reflexivity.
Qed.

Lemma respond_blank_witness :
  forallb is_space (py "   ") = true
  /\ App.respond healthy (py "   ") [(py "hi", Some (py "hello"))]
       fleet_manager_mode one_turn
     = ([([(py "hi", Some (py "hello"))], [])], Ret tt, one_turn)
  /\ Main.respond healthy (py "   ") [(py "hi", Some (py "hello"))]
       fleet_manager_mode one_turn
     = ([], Ret [(py "hi", Some (py "hello"))], one_turn).
Proof.
  split; [reflexivity|].
  apply (respond_blank healthy (py "   ") [(py "hi", Some (py "hello"))]
           fleet_manager_mode one_turn).
  reflexivity.
Defined.

(** ** The query executor *)

Ltac run :=
  cbv [bind try_catch finally call of_outcome ret raise record_event
       connect cursor execute fetchall description cursor_close
       connection_close returns Main.with_];
  cbv beta iota.


Ltac closing E :=
  repeat match goal with
    | |- context [db_cursor_close E ?l] => destruct (db_cursor_close E l)
    | |- context [db_connection_close E ?l] => destruct (db_connection_close E l)
    end.




Lemma app_execute_formats (E : environment) (sql : str) (st : state)
    (columns : list str) (results : list row) :
  fetched E sql (log st) columns results ->
  fst (App.execute_sql_query E sql st)
  = or_error_pair (App.format_results columns results).
Proof.
  intros (Hc & Hk & He & Hf & Hd).
  unfold App.execute_sql_query, App.query. run.
  destruct st as [chat l]; simpl in *.
  rewrite Hc; simpl. rewrite Hk; simpl.
  rewrite <- !app_assoc; simpl.
  rewrite He; simpl. rewrite Hf; simpl. rewrite Hd; simpl.
  destruct (App.format_results columns results); simpl; closing E; reflexivity.
Qed.

Lemma main_execute_formats (E : environment) (sql : str) (st : state)
    (columns : list str) (results : list row) :
  fetched E sql (log st) columns results ->
  closed_quietly E sql (log st) ->
  fst (Main.execute_sql_query E sql st)
  = or_error_pair (Main.format_results columns results).
Proof.
  intros (Hc & Hk & He & Hf & Hd) (Hcc & Hnc).
  unfold Main.execute_sql_query, Main.query. run.
  destruct st as [chat l]; simpl in *.
  rewrite Hc; simpl. rewrite Hk; simpl.
  rewrite <- !app_assoc; simpl.
  rewrite He; simpl. rewrite Hf; simpl. rewrite Hd; simpl.
  destruct (Main.format_results columns results); simpl;
    rewrite <- ?app_assoc; simpl; rewrite Hcc; simpl;
    rewrite <- ?app_assoc; simpl; rewrite Hnc; reflexivity.
Qed.



(** ** Row formatting *)

Lemma min_limit (limit n : nat) : limit < n -> Nat.min limit n = limit.
Proof. intros H. apply Nat.min_l. lia. Qed.

Lemma app_format_truncated (columns : list str) (results : list row) :
  50 < length results ->
  App.format_results columns results
  = Ret (results_header (length results)
         ++ concat (map (format_row columns) (firstn 50 results))
         ++ truncation_suffix 50 (length results),
         results).
Proof.
  intros H. unfold App.format_results.
  destruct results as [|r rs]; [simpl in H; lia|].
  set (n := length (r :: rs)) in *.
  destruct (Nat.eqb_spec n 1) as [H1|_]; [lia|].
  cbv beta iota zeta. rewrite andb_false_l.
  rewrite (min_limit H).
  destruct (Nat.ltb_spec 50 n) as [_|H2]; [|lia].
  now rewrite <- app_assoc.
Qed.

Lemma main_format_truncated (columns : list str) (results : list row) :
  100 < length results ->
  Main.format_results columns results
  = Ret (results_header (length results)
         ++ concat (map (format_row columns) (firstn 100 results))
         ++ truncation_suffix 100 (length results),
         results).
Proof.
  intros H. unfold Main.format_results.
  destruct results as [|r rs]; [simpl in H; lia|].
  set (n := length (r :: rs)) in *.
  destruct (Nat.eqb_spec n 1) as [H1|_]; [lia|].
  cbv beta iota zeta. rewrite andb_false_l.
  destruct (Nat.ltb_spec 100 n) as [_|H2]; [|lia].
  now rewrite <- app_assoc.
Qed.

(** C3, as stated, fails on the one-row, one-column case: the text returned
    is not the bare [column: value] line, a header line and an empty line
    come first. *)
Lemma single_cell_output_has_header :
  App.format_results [py "count"] [[py "7"]]
  = Ret (py "Query Results (1 rows):" ++ [nl; nl] ++ py "count: 7" ++ [nl],
         [[py "7"]])
  /\ Main.format_results [py "count"] [[py "7"]]
     = App.format_results [py "count"] [[py "7"]]
  /\ App.format_results [py "count"] [[py "7"]]
     <> Ret (py "count: 7" ++ [nl], [[py "7"]])
  /\ App.format_results [py "count"] [[py "7"]]
     <> Ret (py "count: 7", [[py "7"]]).
Proof.
  split; [reflexivity|]. split; [reflexivity|].
  split; vm_compute; discriminate.
Qed.

(** C3, amended: for no fetched row the executor's formatting returns the
    fixed no-data text and an empty row list; for one row and one column it
    returns the header [Query Results (1 rows):], an empty line and the
    single [column: value] line, with no row block; for N rows, N above the
    display limit L (50 in [app.py], 100 in [main.py]), it returns the
    header, exactly L row blocks and the suffix naming L and N. *)
Theorem format_results_cases (columns : list str) (results : list row)
    (c v : str) (vs : row) :
  (App.format_results columns [] = Ret (no_data, [])
   /\ Main.format_results columns [] = Ret (no_data, []))
  /\ (App.format_results [c] [v :: vs]
      = Ret (results_header 1 ++ c ++ py ": " ++ v ++ [nl], [v :: vs])
      /\ Main.format_results [c] [v :: vs]
         = Ret (results_header 1 ++ c ++ py ": " ++ v ++ [nl], [v :: vs]))
  /\ (50 < length results ->
      App.format_results columns results
      = Ret (results_header (length results)
             ++ concat (map (format_row columns) (firstn 50 results))
             ++ truncation_suffix 50 (length results),
             results)
      /\ length (map (format_row columns) (firstn 50 results)) = 50)
  /\ (100 < length results ->
      Main.format_results columns results
      = Ret (results_header (length results)
             ++ concat (map (format_row columns) (firstn 100 results))
             ++ truncation_suffix 100 (length results),
             results)
      /\ length (map (format_row columns) (firstn 100 results)) = 100).
Proof.
  split; [split; reflexivity|].
  split; [split; reflexivity|].
  split; intros H.
  - split; [now apply app_format_truncated|].
    rewrite length_map, length_firstn. lia.
  - split; [now apply main_format_truncated|].
    rewrite length_map, length_firstn. lia.
Qed.

Lemma format_results_cases_witness :
  let columns := [py "Vehicle_ID"; py "Vehicle_Type"] in
  let results := repeat [py "12"; py "Truck"] 101 in
  50 < length results
  /\ 100 < length results
  /\ format_row columns [py "12"; py "Truck"]
     = py "Vehicle_ID: 12" ++ [nl] ++ py "Vehicle_Type: Truck" ++ [nl; nl]
  /\ truncation_suffix 50 101 = nl :: py "(Showing first 50 of 101 results)"
  /\ App.format_results columns results
     = Ret (results_header 101
            ++ concat (map (format_row columns) (firstn 50 results))
            ++ truncation_suffix 50 101,
            results)
  /\ Main.format_results columns results
     = Ret (results_header 101
            ++ concat (map (format_row columns) (firstn 100 results))
            ++ truncation_suffix 100 101,
            results).
Proof.
  intros columns results.
  assert (H50 : 50 < length results) by (vm_compute; lia).
  assert (H100 : 100 < length results) by (vm_compute; lia).
  destruct (format_results_cases columns results [] [] [])
    as (_ & _ & Happ & Hmain).
  split; [exact H50|]. split; [exact H100|].
  split; [reflexivity|]. split; [reflexivity|].
  split; [exact (proj1 (Happ H50)) | exact (proj1 (Hmain H100))].
Defined.

(** ** Printing *)

Lemma print_ok (s : str) (st : state) :
  printable s = true -> print s st = (Ret tt, st).
Proof. intros H. unfold print. now rewrite H. Qed.

Lemma print_raises (s : str) (st : state) :
  printable s = false -> print s st = (Raise (encode_error s), st).
Proof. intros H. unfold print. now rewrite H. Qed.

Lemma printable_app (a b : str) :
  printable (a ++ b) = printable a && printable b.
Proof. unfold printable. apply forallb_app. Qed.

Lemma printable_debug_line (mode m : str) :
  printable (debug_line mode m) = printable mode && printable m.
Proof.
  unfold debug_line. rewrite !printable_app.
  change (printable (py "[DEBUG] Mode: ")) with true.
  change (printable (py ", Message: ")) with true.
  reflexivity.
Qed.

Lemma printable_question (q : str) :
  printable (py "[DEBUG] Generating SQL for question: " ++ q) = printable q.
Proof. now rewrite printable_app. Qed.

Lemma printable_generated (sql : str) :
  printable (py "[DEBUG] Generated SQL: " ++ sql) = printable sql.
Proof. now rewrite printable_app. Qed.

Lemma gbind_print_ok {Y A : Type} (s : str) (k : G Y A) (st : state) :
  printable s = true ->
  gbind (lift (print s)) (fun _ => k) st = k st.
Proof.
  intros H. unfold gbind, lift. rewrite (print_ok s st H).
  now destruct (k st) as [[ys r] st'].
Qed.

Lemma gbind_print_raises {Y A : Type} (s : str) (k : G Y A) (st : state) :
  printable s = false ->
  gbind (lift (print s)) (fun _ => k) st = ([], Raise (encode_error s), st).
Proof. intros H. unfold gbind, lift. now rewrite (print_raises s st H). Qed.

(** ** The pipeline stages *)

Lemma count_app (p : event -> bool) (a b : list event) :
  count p (a ++ b) = count p a + count p b.
Proof. unfold count. now rewrite filter_app, length_app. Qed.


Ltac stage_run :=
  cbv [bind try_catch call of_outcome ret raise record_event print];
  cbv beta iota zeta.

(** Whatever the synthesizer does, it leaves the session alone and makes
    no narration call; a query it returns has been printed. *)
Lemma app_generate_frame (E : environment) (q : str) (st : state) :
  exists r st',
    App.generate_sql_query E q st = (r, st')
    /\ current_chat st' = current_chat st
    /\ count is_narration (log st') = count is_narration (log st)
    /\ (forall o, r = Ret o ->
        printable q = true
        /\ forall sql, o = Some sql -> printable sql = true)
    /\ (printable q = true -> exists o, r = Ret o).
Proof.
  unfold App.generate_sql_query, create. stage_run.
  rewrite printable_question.
  destruct (printable q) eqn:Hq.
  2:{ do 2 eexists. repeat split; try reflexivity; discriminate. }
  destruct (llm_client E).
  - destruct (llm_create E _ _) as [content|];
      [rewrite printable_generated;
       destruct (printable (clean_sql content)) eqn:Hp|];
      do 2 eexists; (split; [reflexivity|]); (split; [reflexivity|]);
      (split;
       [cbn [log]; rewrite count_app;
        cbv [count filter is_narration req_system length]; lia|]);
      (split; [|eauto]);
      intros o Ho; inversion Ho; subst; (split; [reflexivity|]);
      intros sql Hs; inversion Hs; subst; assumption.
  - do 2 eexists. (split; [reflexivity|]). repeat split; eauto.
    intros sql Hs. inversion H. subst. discriminate.
Qed.

Lemma main_generate_frame (E : environment) (q : str) (st : state) :
  exists r st',
    Main.generate_sql_query E q st = (r, st')
    /\ current_chat st' = current_chat st
    /\ count is_narration (log st') = count is_narration (log st)
    /\ (forall o, r = Ret o ->
        printable q = true
        /\ forall sql, o = Some sql -> printable sql = true)
    /\ (printable q = true -> exists o, r = Ret o).
Proof.
  unfold Main.generate_sql_query, create. stage_run.
  rewrite printable_question.
  destruct (printable q) eqn:Hq.
  2:{ do 2 eexists. repeat split; try reflexivity; discriminate. }
  destruct (llm_client E).
  - destruct (llm_create E _ _) as [content|];
      [rewrite printable_generated;
       destruct (printable (clean_sql content)) eqn:Hp|];
      do 2 eexists; (split; [reflexivity|]); (split; [reflexivity|]);
      (split;
       [cbn [log]; rewrite count_app;
        cbv [count filter is_narration req_system length]; lia|]);
      (split; [|eauto]);
      intros o Ho; inversion Ho; subst; (split; [reflexivity|]);
      intros sql Hs; inversion Hs; subst; assumption.
  - do 2 eexists. (split; [reflexivity|]). repeat split; eauto.
    intros sql Hs. inversion H. subst. discriminate.
Qed.

(** On a question that can be printed the synthesizer returns. *)
Lemma app_generate_total (E : environment) (q : str) (st : state) :
  printable q = true ->
  exists o st',
    App.generate_sql_query E q st = (Ret o, st')
    /\ current_chat st' = current_chat st
    /\ count is_narration (log st') = count is_narration (log st)
    /\ forall sql, o = Some sql -> printable sql = true.
Proof.
  intros Hq.
  destruct (app_generate_frame E q st)
    as (r & st' & Hg & Hc & Hn & Hp & Hr).
  destruct (Hr Hq) as [o ->]. exists o, st'.
  repeat split; try assumption. now apply (Hp o eq_refl).
Qed.

Lemma main_generate_total (E : environment) (q : str) (st : state) :
  printable q = true ->
  exists o st',
    Main.generate_sql_query E q st = (Ret o, st')
    /\ current_chat st' = current_chat st
    /\ count is_narration (log st') = count is_narration (log st)
    /\ forall sql, o = Some sql -> printable sql = true.
Proof.
  intros Hq.
  destruct (main_generate_frame E q st)
    as (r & st' & Hg & Hc & Hn & Hp & Hr).
  destruct (Hr Hq) as [o ->]. exists o, st'.
  repeat split; try assumption. now apply (Hp o eq_refl).
Qed.




(** ** The orchestrator *)

Ltac gen_run :=
  cbv [gtry gbind lift yield append_turn gret]; cbv beta iota.

Lemma printable_fleet_line (m : str) :
  printable (debug_line fleet_manager_mode m) = printable m.
Proof. rewrite printable_debug_line. reflexivity. Qed.

(** On a mode or a message that cannot be printed the first statement
    raises: nothing is yielded, nothing appended, nobody called. *)
Lemma app_orchestrator_unprintable (E : environment) (m : str)
    (h : list entry) (mode : str) (st : state) :
  printable (debug_line mode m) = false ->
  App.chat_orchestrator E m h mode st
  = ([], Raise (encode_error (debug_line mode m)), st).
Proof. intros H. unfold App.chat_orchestrator. now apply gbind_print_raises. Qed.

Lemma main_orchestrator_unprintable (E : environment) (m : str)
    (h : list entry) (mode : str) (st : state) :
  printable (debug_line mode m) = false ->
  Main.chat_orchestrator E m h mode st
  = ([], Raise (encode_error (debug_line mode m)), st).
Proof.
  intros H. unfold Main.chat_orchestrator. now apply gbind_print_raises.
Qed.






(** C1, refuted by the code.  The first statement of [chat_orchestrator]
    prints the mode and the message outside every [try].  On the message
    made of the one code point U+D800, which standard output cannot encode,
    the orchestrator of either file raises [UnicodeEncodeError] in either
    mode, with every collaborator healthy: no text is yielded, no Turn is
    appended, nobody is called, and the exception leaves [respond] too.
    In [main.py] the print of the narrated answer is unguarded as well: on
    an ordinary question, when the completion endpoint narrates with that
    code point, the orchestrator raises after its three progress texts. *)
Theorem orchestrator_raises_on_unprintable_message :
  App.chat_orchestrator healthy lone_surrogate [] user_mode fresh
  = ([],
     Raise (py "'utf-8' codec can't encode character '\ud800' in position 36: surrogates not allowed"),
     fresh)
  /\ Main.chat_orchestrator healthy lone_surrogate [] user_mode fresh
     = ([],
        Raise (py "'utf-8' codec can't encode character '\ud800' in position 36: surrogates not allowed"),
        fresh)
  /\ App.chat_orchestrator healthy lone_surrogate [] fleet_manager_mode fresh
     = ([],
        Raise (py "'utf-8' codec can't encode character '\ud800' in position 45: surrogates not allowed"),
        fresh)
  /\ Main.chat_orchestrator healthy lone_surrogate [] fleet_manager_mode fresh
     = ([],
        Raise (py "'utf-8' codec can't encode character '\ud800' in position 45: surrogates not allowed"),
        fresh)
  /\ yields (App.respond healthy lone_surrogate [] user_mode fresh) = []
  /\ returns (ending (App.respond healthy lone_surrogate [] user_mode fresh))
     = false
  /\ yields (Main.respond healthy lone_surrogate [] user_mode fresh) = []
  /\ returns (ending (Main.respond healthy lone_surrogate [] user_mode fresh))
     = false
  /\ (let q := py "How many trucks need maintenance?" in
      let sql := py "SELECT COUNT(*) as count FROM t" in
      yields (Main.chat_orchestrator garbled q [] fleet_manager_mode fresh)
      = [Main.analyzing_question; Main.executing_query sql;
         Main.analyzing_results]
      /\ ending (Main.chat_orchestrator garbled q [] fleet_manager_mode fresh)
         = Raise (py "'utf-8' codec can't encode character '\ud800' in position 0: surrogates not allowed")
      /\ current_chat
           (final (Main.chat_orchestrator garbled q [] fleet_manager_mode
                     fresh))
         = []).
Proof.
  assert (Hu : printable (debug_line user_mode lone_surrogate) = false)
    by reflexivity.
  assert (Hf : printable (debug_line fleet_manager_mode lone_surrogate)
               = false) by reflexivity.
  split;
    [exact (@app_orchestrator_unprintable healthy lone_surrogate []
              user_mode fresh Hu)|].
  split;
    [exact (@main_orchestrator_unprintable healthy lone_surrogate []
              user_mode fresh Hu)|].
  split;
    [exact (@app_orchestrator_unprintable healthy lone_surrogate []
              fleet_manager_mode fresh Hf)|].
  split;
    [exact (@main_orchestrator_unprintable healthy lone_surrogate []
              fleet_manager_mode fresh Hf)|].
  repeat split.
Qed.



(** ** Executor failures and the narration step *)

Lemma str_eqb_refl (a : str) : str_eqb a a = true.
Proof. unfold str_eqb. now destruct (list_eq_dec N.eq_dec a a). Qed.














(** ** The session store adapter *)




(** ** The result interpreter's fallback *)




(** ** Starting a new chat *)













(** ** The end-to-end scenarios of the specification *)

(** Fleet Manager Mode, one row [count = 7]: the answer of [app.py] echoes
    the cleaned query and carries the narration; the calls are the
    synthesis, the warehouse session and the narration. *)
Example scenario_count_of_trucks :
  App.chat_orchestrator healthy (py "How many trucks need maintenance?") []
    fleet_manager_mode fresh
  = ([py "**Query Executed:**" ++ [nl] ++ py "```sql" ++ [nl]
      ++ py "SELECT COUNT(*) as count FROM t" ++ [nl] ++ py "```" ++ [nl; nl]
      ++ py "Seven trucks need maintenance."],
     Ret tt,
     {| current_chat :=
          [{| message := py "How many trucks need maintenance?";
              response :=
                App.complete_response (py "SELECT COUNT(*) as count FROM t")
                  (py "Seven trucks need maintenance.") |}];
        log :=
          [EvComplete
             {| req_system := SqlGeneratorPrompt;
                req_user := py "How many trucks need maintenance?";
                req_max_tokens := 300; req_timeout := Some 20 |};
           EvConnect true; EvCursor true;
           EvExecute (py "SELECT COUNT(*) as count FROM t");
           EvFetchall; EvCursorClose; EvConnectionClose;
           EvComplete
             {| req_system := ResultAnalystPrompt;
                req_user :=
                  App.interpret_user_prompt
                    (py "How many trucks need maintenance?")
                    (py "SELECT COUNT(*) as count FROM t")
                    (py "Query Results (1 rows):" ++ [nl; nl]
                     ++ py "count: 7" ++ [nl]);
                req_max_tokens := 500; req_timeout := Some 25 |}] |}).
Proof. reflexivity. Qed.

(** The synthesizer fails: one Turn with the fixed text, in both files. *)
Example scenario_no_query :
  yields (App.chat_orchestrator all_down (py "How many trucks?") []
            fleet_manager_mode fresh) = [no_query]
  /\ current_chat
       (final (App.chat_orchestrator all_down (py "How many trucks?") []
                 fleet_manager_mode fresh))
     = [{| message := py "How many trucks?"; response := no_query |}]
  /\ yields (Main.chat_orchestrator all_down (py "How many trucks?") []
               fleet_manager_mode fresh)
     = [Main.analyzing_question; no_query].
Proof. repeat split. Qed.

(** User Mode: one completion call, no warehouse call, one Turn. *)
Example scenario_general_advice :
  Main.chat_orchestrator healthy (py "When should I rotate my tires?") []
    (128100%N :: py " User Mode") fresh
  = ([py "Seven trucks need maintenance."], Ret tt,
     {| current_chat :=
          [{| message := py "When should I rotate my tires?";
              response := py "Seven trucks need maintenance." |}];
        log :=
          [EvComplete
             {| req_system := MaintenanceAdvisorPrompt;
                req_user := py "When should I rotate my tires?";
                req_max_tokens := 500; req_timeout := None |}] |}).
Proof. reflexivity. Qed.

(** A repeated column name keeps its first position and its last value,
    as the dictionary built from the zipped pairs does. *)
Example format_row_repeated_column :
  format_row [py "a"; py "b"; py "a"] [py "1"; py "2"; py "3"]
  = py "a: 3" ++ [nl] ++ py "b: 2" ++ [nl; nl].
Proof. reflexivity. Qed.

(** * Further properties *)

(** ** More on the cleanup step *)

Lemma starts_with_app (p a b : str) :
  starts_with p a = true -> starts_with p (a ++ b) = true.
Proof.
  revert a. induction p as [|x p IH]; intros a; [reflexivity|].
  destruct a as [|y a]; simpl; [discriminate|].
  intros H. apply andb_true_iff in H as [Hx Hp].
  now rewrite Hx, (IH a Hp).
Qed.

Lemma has_fence_app_l (a b : str) :
  has_fence a = true -> has_fence (a ++ b) = true.
Proof.
  induction a as [|c a IH]; [discriminate|].
  change (has_fence (c :: a)) with (starts_with fence (c :: a) || has_fence a).
  change (has_fence ((c :: a) ++ b))
    with (starts_with fence ((c :: a) ++ b) || has_fence (a ++ b)).
  intros H. apply orb_true_iff in H as [H|H].
  - now rewrite (starts_with_app _ _ b H).
  - rewrite (IH H). apply orb_true_r.
Qed.

Lemma has_fence_app_r (a b : str) :
  has_fence b = true -> has_fence (a ++ b) = true.
Proof.
  intros H. induction a as [|c a IH]; [exact H|].
  change (has_fence ((c :: a) ++ b))
    with (starts_with fence ((c :: a) ++ b) || has_fence (a ++ b)).
  rewrite IH. apply orb_true_r.
Qed.

Lemma strip_no_fence (s : str) :
  has_fence s = false -> has_fence (strip s) = false.
Proof.
  intros H. destruct (has_fence (strip s)) eqn:Hs; [|reflexivity].
  unfold strip in Hs.
  destruct (rstrip_prefix (lstrip s)) as [q Hq].
  destruct (lstrip_suffix s) as [p Hp].
  apply (has_fence_app_l _ q) in Hs. rewrite <- Hq in Hs.
  apply (has_fence_app_r p) in Hs. rewrite <- Hp in Hs. congruence.
Qed.

(** An answer without any three-backtick marker is only stripped. *)
Theorem clean_sql_without_fence (s : str) :
  has_fence s = false -> clean_sql s = strip s.
Proof.
  intros H. unfold clean_sql.
  rewrite (re_sub_no_fence _ (strip_no_fence s H)). apply strip_idempotent.
Qed.

Lemma clean_sql_without_fence_witness :
  let s := [nl] ++ py "  SELECT `Vehicle_ID` FROM t  " ++ [nl] in
  has_fence s = false
  /\ clean_sql s = py "SELECT `Vehicle_ID` FROM t".
Proof.
  intros s. split; [reflexivity|].
  rewrite (clean_sql_without_fence s); reflexivity.
Defined.

Lemma lstrip_length (s : str) : length (lstrip s) <= length s.
Proof.
  destruct (lstrip_suffix s) as [p Hp].
  rewrite Hp at 2. rewrite length_app. lia.
Qed.

Lemma strip_length (s : str) : length (strip s) <= length s.
Proof.
  unfold strip, rstrip. rewrite length_rev.
  pose proof (lstrip_length (rev (lstrip s))) as H1.
  rewrite length_rev in H1. pose proof (lstrip_length s). lia.
Qed.

Lemma sub_from_length (k : nat) (s : str) :
  length (sub_from k s) <= length s.
Proof.
  revert k. induction s as [|c t IH]; intros k; [simpl; lia|].
  destruct k as [|k].
  - change (sub_from 0 (c :: t))
      with (match match_len (c :: t) with
            | Some (S k) => sub_from k t
            | _ => c :: sub_from 0 t
            end).
    destruct (match_len (c :: t)) as [[|k]|]; simpl;
      try (specialize (IH 0); lia).
    specialize (IH k). lia.
  - simpl. specialize (IH k). lia.
Qed.

(** The cleanup only removes characters. *)
Theorem clean_sql_length (s : str) : length (clean_sql s) <= length s.
Proof.
  unfold clean_sql, re_sub_fences.
  pose proof (strip_length (sub_from 0 (strip s))).
  pose proof (sub_from_length 0 (strip s)).
  pose proof (strip_length s). lia.
Qed.

Lemma ws_run_spaces (w t : str) :
  forallb is_space w = true -> ws_run (w ++ t) = length w + ws_run t.
Proof.
  induction w as [|c w IH]; [reflexivity|].
  simpl. intros H. apply andb_true_iff in H as [Hc Hw].
  now rewrite Hc, (IH Hw).
Qed.

Lemma skipn_length_app (a b : str) : skipn (length a) (a ++ b) = b.
Proof. induction a as [|c a IH]; [reflexivity | exact IH]. Qed.

Lemma sub_from_skip (a b : str) :
  sub_from (length a) (a ++ b) = sub_from 0 b.
Proof.
  induction a as [|c a IH]; [reflexivity | exact IH].
Qed.

Lemma sub_from_match (c : char) (t : str) (k : nat) :
  match_len (c :: t) = Some (S k) -> sub_from 0 (c :: t) = sub_from k t.
Proof.
  intros H.
  change (sub_from 0 (c :: t))
    with (match match_len (c :: t) with
          | Some (S k) => sub_from k t
          | _ => c :: sub_from 0 t
          end).
  now rewrite H.
Qed.

Lemma sub_from_no_match (c : char) (t : str) :
  match_len (c :: t) = None -> sub_from 0 (c :: t) = c :: sub_from 0 t.
Proof.
  intros H.
  change (sub_from 0 (c :: t))
    with (match match_len (c :: t) with
          | Some (S k) => sub_from k t
          | _ => c :: sub_from 0 t
          end).
  now rewrite H.
Qed.

Lemma space_no_backtick (c : char) : is_space c = true -> N.eqb 96 c = false.
Proof.
  intros H. destruct (N.eqb_spec 96 c) as [<-|]; [discriminate H|reflexivity].
Qed.

Lemma fence_needs_backtick (c : char) (t : str) :
  N.eqb 96 c = false ->
  starts_with fence (c :: t) = false /\ starts_with fence_sql (c :: t) = false.
Proof.
  intros H.
  change (starts_with fence (c :: t))
    with (N.eqb 96 c && starts_with (py "``") t).
  change (starts_with fence_sql (c :: t))
    with (N.eqb 96 c && starts_with (py "``sql") t).
  now rewrite H.
Qed.

Lemma no_backtick_cons (c : char) (q : str) :
  no_backtick (c :: q) = true -> N.eqb 96 c = false /\ no_backtick q = true.
Proof.
  unfold no_backtick. cbn [forallb]. intros H.
  apply andb_true_iff in H as [Hc Hq]. apply negb_true_iff in Hc.
  rewrite N.eqb_sym in Hc. now split.
Qed.

(** Inside a text without backtick whose last character is no whitespace,
    the pattern matches nowhere. *)
Lemma no_match_inside (q0 : str) (z : char) (rest : str) :
  no_backtick (q0 ++ [z]) = true -> is_space z = false ->
  starts_with fence
    (skipn (ws_run ((q0 ++ [z]) ++ rest)) ((q0 ++ [z]) ++ rest)) = false.
Proof.
  intros Hb Hz. induction q0 as [|c q0 IH].
  - apply no_backtick_cons in Hb as [Hc _].
    cbn [app ws_run]. rewrite Hz. cbn [skipn].
    apply (fence_needs_backtick z rest Hc).
  - apply no_backtick_cons in Hb as [Hc Hq].
    cbn [app ws_run]. destruct (is_space c).
    + cbn [skipn]. now apply IH.
    + cbn [skipn]. apply (fence_needs_backtick c _ Hc).
Qed.

Lemma no_match_at (q0 : str) (z : char) (rest : str) :
  no_backtick (q0 ++ [z]) = true -> is_space z = false ->
  match_len ((q0 ++ [z]) ++ rest) = None.
Proof.
  intros Hb Hz. unfold match_len.
  rewrite (no_match_inside q0 z rest Hb Hz).
  destruct q0 as [|c q0]; apply no_backtick_cons in Hb as [Hc _];
    cbn [app]; now rewrite (proj2 (fence_needs_backtick _ _ Hc)).
Qed.

Lemma sub_from_keeps (q0 : str) (z : char) (rest : str) :
  no_backtick (q0 ++ [z]) = true -> is_space z = false ->
  sub_from 0 ((q0 ++ [z]) ++ rest) = (q0 ++ [z]) ++ sub_from 0 rest.
Proof.
  intros Hb Hz. induction q0 as [|c q0 IH].
  - pose proof (no_match_at [] z rest Hb Hz) as Hm.
    cbn [app] in *. now rewrite sub_from_no_match by exact Hm.
  - pose proof (no_match_at (c :: q0) z rest Hb Hz) as Hm.
    apply no_backtick_cons in Hb as [_ Hq].
    cbn [app] in *. rewrite sub_from_no_match by exact Hm.
    f_equal. now apply IH.
Qed.

Lemma sub_from_closing_fence (w : str) :
  forallb is_space w = true -> sub_from 0 (w ++ fence) = [].
Proof.
  intros Hw.
  assert (Hm : match_len (w ++ fence) = Some (S (length w + 2))).
  { unfold match_len.
    assert (H1 : starts_with fence_sql (w ++ fence) = false).
    { destruct w as [|c w]; [reflexivity|].
      cbn [forallb] in Hw. apply andb_true_iff in Hw as [Hc _].
      cbn [app].
      apply (fence_needs_backtick c _ (space_no_backtick c Hc)). }
    rewrite H1, (ws_run_spaces w fence Hw).
    change (ws_run fence) with 0. rewrite Nat.add_0_r, skipn_length_app.
    change (starts_with fence fence) with true. cbv iota.
    f_equal. change (length fence) with 3. lia. }
  destruct (w ++ fence) as [|c t] eqn:Hx.
  - reflexivity.
  - rewrite (@sub_from_match c t _ Hm).
    assert (Hl : length t = length w + 2).
    { apply (f_equal (@length char)) in Hx. rewrite length_app in Hx.
      change (length fence) with 3 in Hx. simpl in Hx. lia. }
    rewrite <- Hl. rewrite <- (app_nil_r t) at 2. apply sub_from_skip.
Qed.

Lemma stripped_last (q : str) :
  q <> [] -> strip q = q ->
  exists q0 z, q = q0 ++ [z] /\ is_space z = false
               /\ head_ok q = true.
Proof.
  intros Hq Hs. destruct (strip_ends q) as [Hh Hl]. rewrite Hs in Hh, Hl.
  destruct (exists_last Hq) as (q0 & z & ->).
  exists q0, z. split; [reflexivity|]. split; [|exact Hh].
  rewrite rev_app_distr in Hl. simpl in Hl. now apply negb_true_iff.
Qed.

(** A fenced answer is unwrapped: the opening marker with its [sql] tag,
    the whitespace around the query and the closing marker go, the query
    stays as it is. *)
Theorem clean_sql_unwraps (w1 w2 q : str) :
  forallb is_space w1 = true ->
  forallb is_space w2 = true ->
  no_backtick q = true ->
  q <> [] ->
  strip q = q ->
  clean_sql (fence_sql ++ w1 ++ q ++ w2 ++ fence) = q.
Proof.
  intros H1 H2 Hb Hq Hs.
  destruct (stripped_last Hq Hs) as (q0 & z & -> & Hz & Hh).
  unfold clean_sql.
  assert (Hstrip : strip (fence_sql ++ w1 ++ (q0 ++ [z]) ++ w2 ++ fence)
                   = fence_sql ++ w1 ++ (q0 ++ [z]) ++ w2 ++ fence).
  { apply strip_fixed; [reflexivity|].
    rewrite !rev_app_distr. reflexivity. }
  rewrite Hstrip. unfold re_sub_fences.
  assert (Hrun : ws_run (w1 ++ (q0 ++ [z]) ++ w2 ++ fence) = length w1).
  { rewrite (ws_run_spaces _ _ H1).
    destruct q0 as [|c q0]; simpl in *.
    - rewrite Hz. lia.
    - apply negb_true_iff in Hh. rewrite Hh. lia. }
  change (fence_sql ++ w1 ++ (q0 ++ [z]) ++ w2 ++ fence)
    with (96%N :: (py "``sql") ++ w1 ++ (q0 ++ [z]) ++ w2 ++ fence).
  rewrite sub_from_match with (k := 5 + length w1).
  - rewrite (app_assoc (py "``sql") w1).
    replace (5 + length w1) with (length (py "``sql" ++ w1))
      by (rewrite length_app; reflexivity).
    rewrite sub_from_skip.
    rewrite (app_assoc (q0 ++ [z])), <- (app_assoc (q0 ++ [z]) w2 fence).
    rewrite (sub_from_keeps q0 z (w2 ++ fence) Hb Hz).
    rewrite (sub_from_closing_fence w2 H2), app_nil_r. exact Hs.
  - unfold match_len.
    change (starts_with fence_sql
              (96%N :: py "``sql" ++ w1 ++ (q0 ++ [z]) ++ w2 ++ fence))
      with true.
    cbv iota. change (length fence_sql) with 6.
    change (skipn 6 (96%N :: py "``sql" ++ w1 ++ (q0 ++ [z]) ++ w2 ++ fence))
      with (w1 ++ (q0 ++ [z]) ++ w2 ++ fence).
    now rewrite Hrun.
Qed.

Lemma clean_sql_unwraps_witness :
  let q := py "SELECT COUNT(*) as count FROM t WHERE Vehicle_Type = 'Truck'" in
  clean_sql (py "```sql" ++ [nl] ++ q ++ [nl] ++ py "```") = q.
Proof.
  intros q.
  apply (@clean_sql_unwraps [nl] [nl] q);
    [reflexivity | reflexivity | reflexivity | discriminate | reflexivity].
Defined.

(** ** More on the row formatting *)

Lemma app_format_keeps_rows (columns : list str) (results : list row)
    (txt : str) (rows : list row) :
  App.format_results columns results = Ret (txt, rows) -> rows = results.
Proof.
  unfold App.format_results.
  destruct results as [|r rs]; [intros H; now inversion H|].
  destruct (Nat.eqb (length (r :: rs)) 1 && Nat.eqb (length columns) 1);
    try (intros H; now inversion H).
  destruct (first_column columns), (first_cell (r :: rs));
    intros H; now inversion H.
Qed.

Lemma main_format_keeps_rows (columns : list str) (results : list row)
    (txt : str) (rows : list row) :
  Main.format_results columns results = Ret (txt, rows) -> rows = results.
Proof.
  unfold Main.format_results.
  destruct results as [|r rs]; [intros H; now inversion H|].
  destruct (Nat.eqb (length (r :: rs)) 1 && Nat.eqb (length columns) 1);
    try (intros H; now inversion H).
  destruct (first_column columns), (first_cell (r :: rs));
    intros H; now inversion H.
Qed.

(** The rows handed back are the fetched rows: the display limit applies
    to the text only. *)
Theorem format_results_keeps_rows (columns : list str) (results : list row)
    (txt : str) (rows : list row) :
  (App.format_results columns results = Ret (txt, rows) -> rows = results)
  /\ (Main.format_results columns results = Ret (txt, rows) ->
      rows = results).
Proof.
  split; [apply app_format_keeps_rows | apply main_format_keeps_rows].
Qed.

Lemma format_results_keeps_rows_witness :
  let columns := [py "Vehicle_ID"; py "Vehicle_Type"] in
  let results := [[py "12"; py "Truck"]; [py "15"; py "Van"]] in
  let txt := results_header 2
             ++ py "Vehicle_ID: 12" ++ [nl] ++ py "Vehicle_Type: Truck"
             ++ [nl; nl]
             ++ py "Vehicle_ID: 15" ++ [nl] ++ py "Vehicle_Type: Van"
             ++ [nl; nl] in
  App.format_results columns results = Ret (txt, results)
  /\ Main.format_results columns results = Ret (txt, results)
  /\ results = results.
Proof.
  intros columns results txt.
  split; [reflexivity|]. split; [reflexivity|].
  apply (proj1 (format_results_keeps_rows columns results txt results)).
  reflexivity.
Defined.

Lemma first_cell_single (r : row) :
  returns (first_cell [r]) = false <-> r = [].
Proof. destruct r; simpl; split; congruence. Qed.

(** The formatting raises in one case only: a single row without cells
    under a single column, where [results[0][0]] is out of range. *)
Theorem format_results_raises_iff (columns : list str) (results : list row) :
  (returns (App.format_results columns results) = false
   <-> results = [[]] /\ length columns = 1)
  /\ (returns (Main.format_results columns results) = false
      <-> results = [[]] /\ length columns = 1).
Proof.
  unfold App.format_results, Main.format_results.
  split.
  - destruct results as [|r [|r' rs]].
    + simpl. split; [discriminate | intros [H _]; discriminate H].
    + destruct columns as [|c [|c' cs]]; simpl.
      * split; [discriminate | intros [_ H]; discriminate H].
      * destruct r; simpl; split; try discriminate; try (now split).
        intros [H _]. discriminate H.
      * split; [discriminate | intros [_ H]; discriminate H].
    + cbn [length Nat.eqb andb returns].
      split; [discriminate | intros [H _]; discriminate H].
  - destruct results as [|r [|r' rs]].
    + simpl. split; [discriminate | intros [H _]; discriminate H].
    + destruct columns as [|c [|c' cs]]; simpl.
      * split; [discriminate | intros [_ H]; discriminate H].
      * destruct r; simpl; split; try discriminate; try (now split).
        intros [H _]. discriminate H.
      * split; [discriminate | intros [_ H]; discriminate H].
    + cbn [length Nat.eqb andb returns].
      split; [discriminate | intros [H _]; discriminate H].
Qed.

Lemma format_results_raises_iff_witness :
  returns (App.format_results [py "count"] [[]]) = false
  /\ returns (Main.format_results [py "count"] [[]]) = false
  /\ App.format_results [py "count"] [[]]
     = Raise (py "tuple index out of range").
Proof.
  destruct (format_results_raises_iff [py "count"] [[]]) as [Happ Hmain].
  split; [apply (proj2 Happ); split; reflexivity|].
  split; [apply (proj2 Hmain); split; reflexivity | reflexivity].
Defined.

Lemma firstn_covers {A : Type} (n : nat) (l : list A) :
  length l <= n -> firstn n l = l.
Proof. intros H. now apply firstn_all2. Qed.

(** Up to the display limit every fetched row is rendered and no
    truncation suffix is appended, the limit itself included. *)
Theorem format_results_complete (columns : list str) (results : list row) :
  results <> [] ->
  Nat.eqb (length results) 1 && Nat.eqb (length columns) 1 = false ->
  (length results <= 50 ->
   App.format_results columns results
   = Ret (results_header (length results)
          ++ concat (map (format_row columns) results),
          results))
  /\ (length results <= 100 ->
      Main.format_results columns results
      = Ret (results_header (length results)
             ++ concat (map (format_row columns) results),
             results)).
Proof.
  intros Hne Hone. unfold App.format_results, Main.format_results.
  destruct results as [|r rs]; [congruence|].
  rewrite Hone. cbv zeta.
  split; intros Hn.
  - rewrite (Nat.min_r 50 _ Hn), firstn_all, Nat.ltb_irrefl. reflexivity.
  - rewrite (firstn_covers (r :: rs) Hn).
    destruct (Nat.ltb_spec 100 (length (r :: rs))) as [H|_];
      [lia | reflexivity].
Qed.

Lemma format_results_complete_witness :
  let columns := [py "Vehicle_ID"] in
  let results := repeat [py "12"] 50 in
  results <> []
  /\ length results <= 50
  /\ App.format_results columns results
     = Ret (results_header 50 ++ concat (map (format_row columns) results),
            results).
Proof.
  intros columns results.
  assert (Hne : results <> []) by discriminate.
  assert (Hn : length results <= 50) by (vm_compute; lia).
  split; [exact Hne|]. split; [exact Hn|].
  exact (proj1 (format_results_complete columns Hne eq_refl) Hn).
Defined.

(** Up to 50 rows the two entry points format alike. *)
Theorem format_results_agree (columns : list str) (results : list row) :
  length results <= 50 ->
  App.format_results columns results = Main.format_results columns results.
Proof.
  intros Hn. unfold App.format_results, Main.format_results.
  destruct results as [|r rs]; [reflexivity|].
  destruct (Nat.eqb (length (r :: rs)) 1 && Nat.eqb (length columns) 1);
    [reflexivity|].
  cbv zeta.
  rewrite (Nat.min_r 50 _ Hn), firstn_all, Nat.ltb_irrefl.
  rewrite (@firstn_covers row 100 (r :: rs)) by lia.
  destruct (Nat.ltb_spec 100 (length (r :: rs))) as [H|_];
    [lia | reflexivity].
Qed.

Lemma format_results_agree_witness :
  length (repeat [py "12"; py "Truck"] 50) <= 50
  /\ App.format_results [py "Vehicle_ID"; py "Vehicle_Type"]
       (repeat [py "12"; py "Truck"] 50)
     = Main.format_results [py "Vehicle_ID"; py "Vehicle_Type"]
         (repeat [py "12"; py "Truck"] 50).
Proof.
  assert (Hn : length (repeat [py "12"; py "Truck"] 50) <= 50)
    by (vm_compute; lia).
  split; [exact Hn|].
  exact (format_results_agree [py "Vehicle_ID"; py "Vehicle_Type"] _ Hn).
Defined.

Lemma str_eqb_neq (a b : str) : a <> b -> str_eqb a b = false.
Proof. intros H. unfold str_eqb. now destruct (list_eq_dec N.eq_dec a b). Qed.

Lemma dict_set_fresh (k v : str) (d : list (str * str)) :
  ~ In k (map fst d) -> dict_set k v d = d ++ [(k, v)].
Proof.
  induction d as [|[k' v'] d IH]; [reflexivity|].
  simpl. intros H.
  rewrite str_eqb_neq by (intros ->; apply H; now left).
  f_equal. apply IH. intros Hin. apply H. now right.
Qed.

Lemma dict_distinct_from (acc kvs : list (str * str)) :
  NoDup (map fst (acc ++ kvs)) ->
  fold_left (fun d kv => dict_set (fst kv) (snd kv) d) kvs acc = acc ++ kvs.
Proof.
  revert acc. induction kvs as [|[k v] kvs IH]; intros acc H.
  - now rewrite app_nil_r.
  - cbn [fold_left fst snd].
    rewrite dict_set_fresh.
    + rewrite IH; rewrite <- app_assoc; [reflexivity | exact H].
    + rewrite map_app in H. apply NoDup_remove_2 in H.
      intros Hin. apply H. apply in_or_app. now left.
Qed.

Lemma combine_keys_distinct (columns : list str) (r : row) :
  NoDup columns -> NoDup (map fst (combine columns r)).
Proof.
  intros H. revert r. induction H as [|c cs Hc Hcs IH]; intros r.
  - constructor.
  - destruct r as [|v r]; [constructor|].
    simpl. constructor; [|apply IH].
    intros Hin. apply Hc. clear -Hin.
    revert r Hin. induction cs as [|c' cs IH]; intros r Hin; [destruct Hin|].
    destruct r as [|v r]; [destruct Hin|].
    simpl in Hin. destruct Hin as [->|Hin]; [now left | right; eauto].
Qed.

(** Under distinct column names a row block has one [column: value] line
    per cell, in column order, and an empty line; cells beyond the last
    column, or columns beyond the last cell, give no line. *)
Theorem format_row_distinct (columns : list str) (r : row) :
  NoDup columns ->
  format_row columns r
  = concat (map cell_line (combine columns r)) ++ [nl].
Proof.
  intros H. unfold format_row, dict.
  rewrite (dict_distinct_from [] (combine columns r)); [reflexivity|].
  now apply combine_keys_distinct.
Qed.

Lemma format_row_distinct_witness :
  NoDup [py "Vehicle_ID"; py "Vehicle_Type"]
  /\ format_row [py "Vehicle_ID"; py "Vehicle_Type"]
       [py "12"; py "Truck"; py "extra"]
     = py "Vehicle_ID: 12" ++ [nl] ++ py "Vehicle_Type: Truck" ++ [nl; nl].
Proof.
  assert (H : NoDup [py "Vehicle_ID"; py "Vehicle_Type"]).
  { constructor; [|constructor; [|constructor]].
    - intros [H|[]]. discriminate H.
    - intros []. }
  split; [exact H|].
  exact (format_row_distinct [py "12"; py "Truck"; py "extra"] H).
Defined.

(** ** More on the query executor *)

Ltac same_closing E :=
  repeat match goal with
    | |- context [db_cursor_close E ?l] => destruct (db_cursor_close E l)
    | |- context [db_connection_close E ?l] =>
        destruct (db_connection_close E l)
    end;
  try reflexivity.

(** The two entry points make the same warehouse calls in the same order
    and leave the same state, whatever the warehouse answers. *)
Theorem executors_same_state (E : environment) (sql : str) (st : state) :
  snd (App.execute_sql_query E sql st) = snd (Main.execute_sql_query E sql st).
Proof.
  unfold App.execute_sql_query, App.query, Main.execute_sql_query, Main.query.
  run. destruct st as [chat l]; simpl.
  destruct (db_connect E l); simpl; [|reflexivity].
  destruct (db_cursor E _); simpl; [|same_closing E].
  destruct (db_execute E _ sql); simpl; [|same_closing E].
  destruct (db_fetchall E _) as [results|]; simpl; [|same_closing E].
  destruct (db_description E _) as [columns|]; simpl; [|same_closing E].
  destruct (App.format_results columns results),
           (Main.format_results columns results); simpl; same_closing E.
Qed.

Ltac fetched_here :=
  repeat match goal with u : unit |- _ => destruct u end;
  repeat split; simpl; rewrite <- ?app_assoc in *; simpl in *; assumption.

Lemma app_execute_rows_fetched (E : environment) (sql : str) (st : state)
    (txt : str) (r : row) (rows : list row) :
  fst (App.execute_sql_query E sql st) = Ret (txt, r :: rows) ->
  exists columns,
    fetched E sql (log st) columns (r :: rows)
    /\ App.format_results columns (r :: rows) = Ret (txt, r :: rows).
Proof.
  unfold App.execute_sql_query, App.query. run.
  destruct st as [chat l]; simpl.
  destruct (db_connect E l) eqn:Hc; simpl; [|discriminate].
  destruct (db_cursor E _) eqn:Hk; simpl.
  2:{ same_closing E; discriminate. }
  destruct (db_execute E _ sql) eqn:He; simpl.
  2:{ same_closing E; discriminate. }
  destruct (db_fetchall E _) as [results|] eqn:Hf; simpl.
  2:{ same_closing E; discriminate. }
  destruct (db_description E _) as [columns|] eqn:Hd; simpl.
  2:{ same_closing E; discriminate. }
  destruct (App.format_results columns results) as [[t rs]|] eqn:Hfmt; simpl.
  2:{ same_closing E; discriminate. }
  assert (Hrows : rs = results) by (eapply app_format_keeps_rows; eauto).
  subst rs.
  intros Hres.
  assert (Heq : (t, results) = (txt, r :: rows)).
  { revert Hres. same_closing E; simpl; congruence. }
  inversion Heq; subst. exists columns. split; [fetched_here | exact Hfmt].
Qed.

Lemma main_execute_rows_fetched (E : environment) (sql : str) (st : state)
    (txt : str) (r : row) (rows : list row) :
  fst (Main.execute_sql_query E sql st) = Ret (txt, r :: rows) ->
  exists columns,
    fetched E sql (log st) columns (r :: rows)
    /\ closed_quietly E sql (log st)
    /\ Main.format_results columns (r :: rows) = Ret (txt, r :: rows).
Proof.
  unfold Main.execute_sql_query, Main.query. run.
  destruct st as [chat l]; simpl.
  destruct (db_connect E l) eqn:Hc; simpl; [|discriminate].
  destruct (db_cursor E _) eqn:Hk; simpl.
  2:{ same_closing E; discriminate. }
  destruct (db_execute E _ sql) eqn:He; simpl.
  2:{ same_closing E; discriminate. }
  destruct (db_fetchall E _) as [results|] eqn:Hf; simpl.
  2:{ same_closing E; discriminate. }
  destruct (db_description E _) as [columns|] eqn:Hd; simpl.
  2:{ same_closing E; discriminate. }
  destruct (Main.format_results columns results) as [[t rs]|] eqn:Hfmt; simpl.
  2:{ same_closing E; discriminate. }
  assert (Hrows : rs = results) by (eapply main_format_keeps_rows; eauto).
  subst rs.
  destruct (db_cursor_close E _) eqn:Hcc; simpl;
    destruct (db_connection_close E _) eqn:Hnc; simpl;
    try discriminate.
  intros Hres. inversion Hres; subst.
  exists columns. split; [fetched_here|]. split; [|exact Hfmt].
  unfold closed_quietly. fetched_here.
Qed.

(** Rows handed on by the executor are rows the warehouse served: a
    non-empty row list comes back only when connecting, opening the cursor,
    executing, fetching and describing all returned (in [main.py] both
    closes too); it is then the fetched list itself, and the text is its
    formatting. *)
Theorem execute_rows_are_fetched (E : environment) (sql : str) (st : state)
    (txt : str) (r : row) (rows : list row) :
  (fst (App.execute_sql_query E sql st) = Ret (txt, r :: rows) ->
   exists columns,
     fetched E sql (log st) columns (r :: rows)
     /\ App.format_results columns (r :: rows) = Ret (txt, r :: rows))
  /\ (fst (Main.execute_sql_query E sql st) = Ret (txt, r :: rows) ->
      exists columns,
        fetched E sql (log st) columns (r :: rows)
        /\ closed_quietly E sql (log st)
        /\ Main.format_results columns (r :: rows) = Ret (txt, r :: rows)).
Proof.
  split; [apply app_execute_rows_fetched | apply main_execute_rows_fetched].
Qed.

Lemma execute_rows_are_fetched_witness :
  let txt := results_header 1 ++ py "count: 7" ++ [nl] in
  fst (App.execute_sql_query healthy (py "SELECT 1") fresh)
  = Ret (txt, [[py "7"]])
  /\ fst (Main.execute_sql_query healthy (py "SELECT 1") fresh)
     = Ret (txt, [[py "7"]])
  /\ (exists columns,
         fetched healthy (py "SELECT 1") (log fresh) columns [[py "7"]]
         /\ App.format_results columns [[py "7"]] = Ret (txt, [[py "7"]])).
Proof.
  intros txt. split; [reflexivity|]. split; [reflexivity|].
  apply (proj1 (execute_rows_are_fetched healthy (py "SELECT 1") fresh txt
                  [py "7"] [])).
  reflexivity.
Defined.

(** ** More on the synthesizer and the interpreter *)

Lemma clean_sql_stripped (content : str) :
  strip (clean_sql content) = clean_sql content.
Proof. unfold clean_sql. apply strip_idempotent. Qed.

(** Whatever query the synthesizer hands on, it neither starts nor ends
    with whitespace. *)
Theorem generate_sql_query_stripped (E : environment) (question sql : str)
    (st : state) :
  (fst (App.generate_sql_query E question st) = Ret (Some sql) ->
   strip sql = sql)
  /\ (fst (Main.generate_sql_query E question st) = Ret (Some sql) ->
      strip sql = sql).
Proof.
  unfold App.generate_sql_query, Main.generate_sql_query, create.
  stage_run.
  split; destruct (printable _); cbn [fst]; try discriminate;
    destruct (llm_client E); cbn [fst]; try discriminate;
    (destruct (llm_create E _ _) as [content|]; cbn [fst];
     try discriminate);
    destruct (printable _); cbn [fst]; try discriminate;
    intros H; inversion H; apply clean_sql_stripped.
Qed.

Lemma generate_sql_query_stripped_witness :
  fst (App.generate_sql_query healthy (py "How many trucks?") fresh)
  = Ret (Some (py "SELECT COUNT(*) as count FROM t"))
  /\ strip (py "SELECT COUNT(*) as count FROM t")
     = py "SELECT COUNT(*) as count FROM t".
Proof.
  split; [reflexivity|].
  apply (proj1 (generate_sql_query_stripped healthy (py "How many trucks?")
                  (py "SELECT COUNT(*) as count FROM t") fresh)).
  reflexivity.
Defined.

Lemma firstn_2000_twice (s : str) : firstn 2000 (firstn 2000 s) = firstn 2000 s.
Proof. rewrite firstn_firstn. now rewrite Nat.min_id. Qed.

Lemma firstn_1000_of_2000 (s : str) :
  firstn 1000 (firstn 2000 s) = firstn 1000 s.
Proof.
  rewrite firstn_firstn. reflexivity.
Qed.

(** The interpreter of [app.py] reads the first 2000 characters of the
    formatted results only: the request it sends, its answer, its fallback
    and the state it leaves are the same for two result texts that agree
    on them. *)
Theorem interpreter_reads_2000 (E : environment) (q sql qr : str)
    (st : state) :
  App.interpret_sql_results E q sql qr st
  = App.interpret_sql_results E q sql (firstn 2000 qr) st.
Proof.
  unfold App.interpret_sql_results, App.interpret_user_prompt.
  now rewrite firstn_2000_twice, firstn_1000_of_2000.
Qed.

(** ** What a message costs *)

Ltac spends_with d :=
  exists d;
  split; [simpl; rewrite <- ?app_assoc; reflexivity|];
  split; [cbv [count filter is_completion length]; lia|];
  split; [cbv [count filter is_connect length]; lia|];
  cbv [count filter is_store length]; lia.

Lemma spends_refl (c k : nat) (l : list event) : spends c k l l.
Proof. exists []. rewrite app_nil_r. repeat split; cbv; lia. Qed.

Lemma spends_trans (c1 k1 c2 k2 : nat) (l1 l2 l3 : list event) :
  spends c1 k1 l1 l2 -> spends c2 k2 l2 l3 ->
  spends (c1 + c2) (k1 + k2) l1 l3.
Proof.
  intros (d1 & -> & Hc1 & Hk1 & Hs1) (d2 & -> & Hc2 & Hk2 & Hs2).
  exists (d1 ++ d2). rewrite !count_app, app_assoc.
  repeat split; lia.
Qed.

Lemma spends_weaken (c k c' k' : nat) (l l' : list event) :
  spends c k l l' -> c <= c' -> k <= k' -> spends c' k' l l'.
Proof.
  intros (d & -> & Hc & Hk & Hs) Hc' Hk'. exists d. repeat split; lia.
Qed.

Lemma app_generate_spends (E : environment) (q : str) (st : state) :
  exists r st',
    App.generate_sql_query E q st = (r, st')
    /\ spends 1 0 (log st) (log st').
Proof.
  unfold App.generate_sql_query, create. stage_run.
  destruct (printable _).
  2:{ do 2 eexists. split; [reflexivity|]. apply spends_refl. }
  destruct (llm_client E).
  - destruct (llm_create E _ _) as [content|];
      [destruct (printable _)|];
      do 2 eexists; (split; [reflexivity|]); cbn [log];
      spends_with [EvComplete (app_sql_request q)].
  - do 2 eexists. split; [reflexivity|]. apply spends_refl.
Qed.

Lemma main_generate_spends (E : environment) (q : str) (st : state) :
  exists r st',
    Main.generate_sql_query E q st = (r, st')
    /\ spends 1 0 (log st) (log st').
Proof.
  unfold Main.generate_sql_query, create. stage_run.
  destruct (printable _).
  2:{ do 2 eexists. split; [reflexivity|]. apply spends_refl. }
  destruct (llm_client E).
  - destruct (llm_create E _ _) as [content|];
      [destruct (printable _)|];
      do 2 eexists; (split; [reflexivity|]); cbn [log];
      spends_with [EvComplete (main_sql_request q)].
  - do 2 eexists. split; [reflexivity|]. apply spends_refl.
Qed.

Lemma app_interpret_spends (E : environment) (q sql qr : str) (st : state) :
  exists a st',
    App.interpret_sql_results E q sql qr st = (Ret a, st')
    /\ current_chat st' = current_chat st
    /\ spends 1 0 (log st) (log st').
Proof.
  unfold App.interpret_sql_results, create. run.
  destruct (llm_client E); simpl.
  - destruct (llm_create E _ _); simpl; do 2 eexists;
      (split; [reflexivity|]); (split; [reflexivity|]);
      cbn [log];
      match goal with
      | |- spends _ _ _ (_ ++ [?ev]) => spends_with [ev]
      end.
  - do 2 eexists. split; [reflexivity|]. split; [reflexivity|].
    apply spends_refl.
Qed.

Lemma main_interpret_spends (E : environment) (q sql qr : str) (st : state) :
  exists a st',
    Main.interpret_sql_results E q sql qr st = (Ret a, st')
    /\ current_chat st' = current_chat st
    /\ spends 1 0 (log st) (log st').
Proof.
  unfold Main.interpret_sql_results, create. run.
  destruct (llm_client E); simpl.
  - destruct (llm_create E _ _); simpl; do 2 eexists;
      (split; [reflexivity|]); (split; [reflexivity|]);
      cbn [log];
      match goal with
      | |- spends _ _ _ (_ ++ [?ev]) => spends_with [ev]
      end.
  - do 2 eexists. split; [reflexivity|]. split; [reflexivity|].
    apply spends_refl.
Qed.

Ltac quiet_with d :=
  do 2 eexists; split; [reflexivity|]; split; [reflexivity|];
  cbn [log]; spends_with d.

Lemma app_execute_spends (E : environment) (sql : str) (st : state) :
  exists v st',
    App.execute_sql_query E sql st = (Ret v, st')
    /\ current_chat st' = current_chat st
    /\ spends 0 1 (log st) (log st').
Proof.
  unfold App.execute_sql_query, App.query. run.
  destruct st as [chat l]; simpl.
  destruct (db_connect E l); simpl.
  2:{ quiet_with [EvConnect false]. }
  destruct (db_cursor E _); simpl.
  2:{ closing E.
      all: quiet_with [EvConnect true; EvCursor false; EvConnectionClose]. }
  destruct (db_execute E _ sql); simpl.
  2:{ closing E.
      all: quiet_with [EvConnect true; EvCursor true; EvExecute sql;
                       EvCursorClose; EvConnectionClose]. }
  destruct (db_fetchall E _); simpl.
  2:{ closing E.
      all: quiet_with [EvConnect true; EvCursor true; EvExecute sql;
                       EvFetchall; EvCursorClose; EvConnectionClose]. }
  destruct (db_description E _); simpl.
  2:{ closing E.
      all: quiet_with [EvConnect true; EvCursor true; EvExecute sql;
                       EvFetchall; EvCursorClose; EvConnectionClose]. }
  destruct (App.format_results _ _); simpl; closing E.
  all: quiet_with [EvConnect true; EvCursor true; EvExecute sql;
                   EvFetchall; EvCursorClose; EvConnectionClose].
Qed.

Lemma main_execute_spends (E : environment) (sql : str) (st : state) :
  exists v st',
    Main.execute_sql_query E sql st = (Ret v, st')
    /\ current_chat st' = current_chat st
    /\ spends 0 1 (log st) (log st').
Proof.
  unfold Main.execute_sql_query, Main.query. run.
  destruct st as [chat l]; simpl.
  destruct (db_connect E l); simpl.
  2:{ quiet_with [EvConnect false]. }
  destruct (db_cursor E _); simpl.
  2:{ closing E.
      all: quiet_with [EvConnect true; EvCursor false; EvConnectionClose]. }
  destruct (db_execute E _ sql); simpl.
  2:{ closing E.
      all: quiet_with [EvConnect true; EvCursor true; EvExecute sql;
                       EvCursorClose; EvConnectionClose]. }
  destruct (db_fetchall E _); simpl.
  2:{ closing E.
      all: quiet_with [EvConnect true; EvCursor true; EvExecute sql;
                       EvFetchall; EvCursorClose; EvConnectionClose]. }
  destruct (db_description E _); simpl.
  2:{ closing E.
      all: quiet_with [EvConnect true; EvCursor true; EvExecute sql;
                       EvFetchall; EvCursorClose; EvConnectionClose]. }
  destruct (Main.format_results _ _); simpl; closing E.
  all: quiet_with [EvConnect true; EvCursor true; EvExecute sql;
                   EvFetchall; EvCursorClose; EvConnectionClose].
Qed.

Lemma app_orchestrator_spends (E : environment) (m : str) (h : list entry)
    (mode : str) (st : state) :
  spends 2 1 (log st) (log (final (App.chat_orchestrator E m h mode st))).
Proof.
  destruct (printable (debug_line mode m)) eqn:Hp.
  2:{ rewrite (@app_orchestrator_unprintable E m h mode st Hp).
      apply spends_refl. }
  unfold App.chat_orchestrator. rewrite gbind_print_ok by exact Hp.
  rewrite printable_debug_line in Hp. apply andb_true_iff in Hp as [_ Hm].
  destruct (llm_client E) eqn:H; cbn [negb]; [|apply spends_refl].
  destruct (str_eqb mode fleet_manager_mode).
  - gen_run.
    destruct (app_generate_total E m st Hm) as (o & st1 & Hg & _).
    destruct (app_generate_spends E m st) as (r0 & st0 & Hg0 & S1).
    rewrite Hg in Hg0. inversion Hg0; subst r0 st0. clear Hg0.
    rewrite Hg.
    destruct (App.usable o) as [sql|].
    + destruct (app_execute_spends E sql st1) as ([qr raw] & st2 & -> & _ & S2).
      pose proof (spends_trans S1 S2) as S12.
      destruct raw as [|r0 raw].
      * simpl. apply (spends_weaken S12); lia.
      * destruct (app_interpret_spends E m sql qr st2)
          as (a & st3 & -> & _ & S3).
        unfold print. destruct (printable (App.complete_response sql a)); simpl;
          apply (spends_weaken (spends_trans S12 S3)); lia.
    + simpl. apply (spends_weaken S1); lia.
  - gen_run. unfold create. rewrite H. run. unfold print.
    destruct (llm_create E _ _) as [a|]; [destruct (printable a)|]; simpl;
      spends_with [EvComplete (app_advice_request m)].
Qed.

Lemma main_orchestrator_spends (E : environment) (m : str) (h : list entry)
    (mode : str) (st : state) :
  spends 2 1 (log st) (log (final (Main.chat_orchestrator E m h mode st))).
Proof.
  destruct (printable (debug_line mode m)) eqn:Hp.
  2:{ rewrite (@main_orchestrator_unprintable E m h mode st Hp).
      apply spends_refl. }
  unfold Main.chat_orchestrator. rewrite gbind_print_ok by exact Hp.
  rewrite printable_debug_line in Hp. apply andb_true_iff in Hp as [_ Hm].
  destruct (llm_client E) eqn:H; cbn [negb]; [|apply spends_refl].
  destruct (str_eqb mode fleet_manager_mode).
  - gen_run.
    destruct (main_generate_total E m st Hm) as (o & st1 & Hg & _).
    destruct (main_generate_spends E m st) as (r0 & st0 & Hg0 & S1).
    rewrite Hg in Hg0. inversion Hg0; subst r0 st0. clear Hg0.
    rewrite Hg.
    destruct (Main.usable o) as [sql|].
    + destruct (main_execute_spends E sql st1)
        as ([qr raw] & st2 & -> & _ & S2).
      pose proof (spends_trans S1 S2) as S12.
      destruct raw as [|r0 raw].
      * simpl. apply (spends_weaken S12); lia.
      * destruct (main_interpret_spends E m sql qr st2)
          as (a & st3 & -> & _ & S3).
        unfold print. destruct (printable a); simpl;
          apply (spends_weaken (spends_trans S12 S3)); lia.
    + simpl. apply (spends_weaken S1); lia.
  - gen_run. unfold create. rewrite H. run. unfold print.
    destruct (llm_create E _ _) as [a|]; [destruct (printable a)|]; simpl;
      spends_with [EvComplete (main_advice_request m)].
Qed.

(** One message costs at most two completion calls and one connection
    attempt, and the orchestrator never calls the store, in either entry
    point and whatever the collaborators answer. *)
Theorem orchestrator_budget (E : environment) (m : str) (h : list entry)
    (mode : str) (st : state) :
  spends 2 1 (log st) (log (final (App.chat_orchestrator E m h mode st)))
  /\ spends 2 1 (log st)
       (log (final (Main.chat_orchestrator E m h mode st))).
Proof.
  split; [apply app_orchestrator_spends | apply main_orchestrator_spends].
Qed.

(** ** The two modes *)










(** ** The respond handler on a real message *)








(** ** Listing the earlier chats *)

Lemma summaries_returns (docs : list document) :
  returns (summaries docs) = forallb has_timestamp docs.
Proof.
  induction docs as [|d docs IH]; [reflexivity|].
  simpl. unfold has_timestamp at 1.
  destruct (doc_timestamp d); [|reflexivity].
  rewrite <- IH. now destruct (summaries docs).
Qed.

Lemma summaries_conversations (docs : list document) (l : list chat_summary) :
  summaries docs = Ret l ->
  map (fun c : chat_summary => snd (fst c)) l = map doc_conversation docs.
Proof.
  revert l. induction docs as [|d docs IH]; intros l.
  - simpl. intros H. now inversion H.
  - simpl. destruct (doc_timestamp d); [|discriminate].
    destruct (summaries docs) as [l'|]; [|discriminate].
    intros H. inversion H. simpl. f_equal. now apply IH.
Qed.

Lemma summaries_missing_timestamp (docs : list document) :
  forallb has_timestamp docs = false ->
  summaries docs = Raise (py "'timestamp'").
Proof.
  induction docs as [|d docs IH]; [discriminate|].
  simpl. unfold has_timestamp at 1.
  destruct (doc_timestamp d); [|reflexivity].
  simpl. intros H. now rewrite (IH H).
Qed.

(** Listing is all or nothing: when every listed document has a
    timestamp, one tuple per document comes back, in the store's order and
    with the document's turns; when a single one lacks it, [app.py] returns
    the empty list, dropping the well-formed sessions too, and [main.py]
    raises. *)
Theorem get_all_chats_all_or_nothing (E : environment) (st : state)
    (docs : list document) :
  collection E = true ->
  mongo_find E (log st) = Ret docs ->
  (forallb has_timestamp docs = true ->
   exists l,
     fst (App.get_all_chats E st) = Ret l
     /\ fst (Main.get_all_chats E st) = Ret l
     /\ map (fun c : chat_summary => snd (fst c)) l
        = map doc_conversation docs)
  /\ (forallb has_timestamp docs = false ->
      fst (App.get_all_chats E st) = Ret []
      /\ fst (Main.get_all_chats E st) = Raise (py "'timestamp'")).
Proof.
  intros Hcol Hfind.
  unfold App.get_all_chats, Main.get_all_chats, find_sorted. run.
  rewrite Hcol, Hfind. simpl. split; intros H.
  - pose proof (summaries_returns docs) as Hr. rewrite H in Hr.
    destruct (summaries docs) as [l|] eqn:Hs; [|discriminate].
    exists l. simpl. repeat split. now apply summaries_conversations.
  - rewrite (summaries_missing_timestamp docs H). now split.
Qed.

Lemma get_all_chats_all_or_nothing_witness :
  collection one_bad_document = true
  /\ fst (App.get_all_chats one_bad_document fresh) = Ret []
  /\ fst (Main.get_all_chats one_bad_document fresh)
     = Raise (py "'timestamp'")
  /\ (exists l,
         fst (App.get_all_chats healthy fresh) = Ret l
         /\ fst (Main.get_all_chats healthy fresh) = Ret l
         /\ map (fun c : chat_summary => snd (fst c)) l = []).
Proof.
  split; [reflexivity|].
  destruct (@get_all_chats_all_or_nothing one_bad_document fresh _ eq_refl
              eq_refl) as [_ Hbad].
  destruct (@get_all_chats_all_or_nothing healthy fresh _ eq_refl eq_refl)
    as [Hgood _].
  split; [exact (proj1 (Hbad eq_refl))|].
  split; [exact (proj2 (Hbad eq_refl))|].
  exact (Hgood eq_refl).
Defined.





(** ** New chat and sidebar *)










(** ** The narrated answer and the two executors *)

Lemma printable_complete_response (sql answer : str) :
  printable (App.complete_response sql answer)
  = printable sql && printable answer.
Proof.
  unfold App.complete_response. rewrite !printable_app.
  change (printable (py "**Query Executed:**")) with true.
  change (printable (py "```sql")) with true.
  change (printable (py "```")) with true.
  change (printable [nl]) with true.
  change (printable [nl; nl]) with true.
  reflexivity.
Qed.

Lemma app_generate_printed (E : environment) (q sql : str)
    (st st' : state) :
  App.generate_sql_query E q st = (Ret (Some sql), st') ->
  printable q = true /\ printable sql = true.
Proof.
  intros Hg.
  destruct (app_generate_frame E q st) as (r & st1 & Hg' & _ & _ & Hp & _).
  rewrite Hg in Hg'. inversion Hg'; subst.
  destruct (Hp _ eq_refl) as [Hq Hs]. split; [exact Hq|].
  now apply Hs.
Qed.

Lemma main_generate_printed (E : environment) (q sql : str)
    (st st' : state) :
  Main.generate_sql_query E q st = (Ret (Some sql), st') ->
  printable q = true /\ printable sql = true.
Proof.
  intros Hg.
  destruct (main_generate_frame E q st) as (r & st1 & Hg' & _ & _ & Hp & _).
  rewrite Hg in Hg'. inversion Hg'; subst.
  destruct (Hp _ eq_refl) as [Hq Hs]. split; [exact Hq|].
  now apply Hs.
Qed.

Lemma app_narrated (E : environment) (m : str) (h : list entry)
    (st st1 st2 st3 : state) (sql qr answer : str) (r : row)
    (rows : list row) :
  llm_client E = true ->
  App.generate_sql_query E m st = (Ret (Some sql), st1) ->
  sql <> [] ->
  App.execute_sql_query E sql st1 = (Ret (qr, r :: rows), st2) ->
  App.interpret_sql_results E m sql qr st2 = (Ret answer, st3) ->
  App.chat_orchestrator E m h fleet_manager_mode st
  = let reply :=
      if printable answer then App.complete_response sql answer
      else App.fleet_error (encode_error (App.complete_response sql answer))
    in
    ([reply], Ret tt,
     {| current_chat :=
          current_chat st3 ++ [{| message := m; response := reply |}];
        log := log st3 |}).
Proof.
  intros H Hg Hs Hx Hi.
  destruct (@app_generate_printed E m sql st st1 Hg) as [Hm Hsql].
  unfold App.chat_orchestrator.
  rewrite gbind_print_ok by now rewrite printable_fleet_line.
  rewrite H, str_eqb_refl. cbn [negb]. gen_run. rewrite Hg.
  destruct sql as [|c t]; [congruence|]. cbn [App.usable].
  rewrite Hx, Hi. unfold print.
  rewrite printable_complete_response, Hsql. cbn [andb].
  now destruct (printable answer).
Qed.

Lemma main_narrated (E : environment) (m : str) (h : list entry)
    (st st1 st2 st3 : state) (sql qr answer : str) (r : row)
    (rows : list row) :
  llm_client E = true ->
  Main.generate_sql_query E m st = (Ret (Some sql), st1) ->
  sql <> [] ->
  Main.execute_sql_query E sql st1 = (Ret (qr, r :: rows), st2) ->
  Main.interpret_sql_results E m sql qr st2 = (Ret answer, st3) ->
  Main.chat_orchestrator E m h fleet_manager_mode st
  = if printable answer then
      ([Main.analyzing_question; Main.executing_query sql;
        Main.analyzing_results; answer],
       Ret tt,
       {| current_chat :=
            current_chat st3 ++ [{| message := m; response := answer |}];
          log := log st3 |})
    else
      ([Main.analyzing_question; Main.executing_query sql;
        Main.analyzing_results],
       Raise (encode_error answer), st3).
Proof.
  intros H Hg Hs Hx Hi.
  destruct (@main_generate_printed E m sql st st1 Hg) as [Hm Hsql].
  unfold Main.chat_orchestrator.
  rewrite gbind_print_ok by now rewrite printable_fleet_line.
  rewrite H, str_eqb_refl. cbn [negb]. gen_run. rewrite Hg.
  destruct sql as [|c t]; [congruence|]. cbn [Main.usable].
  rewrite Hx, Hi. unfold print.
  now destruct (printable answer).
Qed.

(** When the executor hands on rows, the reply joins the stages.  If the
    interpreter's text can be printed, the reply is, in [app.py], the query
    echoed in a fenced block followed by that text and, in [main.py], that
    text alone after the three progress texts; the Turn stored carries that
    reply, not a progress text.  If the interpreter's text cannot be
    printed, [app.py] answers and stores the error text built from the
    encoding error, and [main.py] raises that error after the three
    progress texts and stores no Turn. *)
Theorem narrated_answer (E : environment) (m : str) (h : list entry)
    (st st1 st2 st3 : state) (sql qr answer : str) (r : row)
    (rows : list row) :
  llm_client E = true ->
  sql <> [] ->
  (App.generate_sql_query E m st = (Ret (Some sql), st1) ->
   App.execute_sql_query E sql st1 = (Ret (qr, r :: rows), st2) ->
   App.interpret_sql_results E m sql qr st2 = (Ret answer, st3) ->
   (printable answer = true ->
    App.chat_orchestrator E m h fleet_manager_mode st
    = ([py "**Query Executed:**" ++ [nl] ++ py "```sql" ++ [nl] ++ sql
        ++ [nl] ++ py "```" ++ [nl; nl] ++ answer],
       Ret tt,
       {| current_chat :=
            current_chat st3
            ++ [{| message := m;
                   response := App.complete_response sql answer |}];
          log := log st3 |}))
   /\ (printable answer = false ->
       App.chat_orchestrator E m h fleet_manager_mode st
       = (let error_msg :=
            App.fleet_error
              (encode_error (App.complete_response sql answer)) in
          ([error_msg], Ret tt,
           {| current_chat :=
                current_chat st3
                ++ [{| message := m; response := error_msg |}];
              log := log st3 |}))))
  /\ (Main.generate_sql_query E m st = (Ret (Some sql), st1) ->
      Main.execute_sql_query E sql st1 = (Ret (qr, r :: rows), st2) ->
      Main.interpret_sql_results E m sql qr st2 = (Ret answer, st3) ->
      (printable answer = true ->
       Main.chat_orchestrator E m h fleet_manager_mode st
       = ([Main.analyzing_question; Main.executing_query sql;
           Main.analyzing_results; answer],
          Ret tt,
          {| current_chat :=
               current_chat st3 ++ [{| message := m; response := answer |}];
             log := log st3 |}))
      /\ (printable answer = false ->
          Main.chat_orchestrator E m h fleet_manager_mode st
          = ([Main.analyzing_question; Main.executing_query sql;
              Main.analyzing_results],
             Raise (encode_error answer), st3))).
Proof.
  intros H Hs. split; intros Hg Hx Hi.
  - rewrite (@app_narrated E m h st st1 st2 st3 sql qr answer r rows
             H Hg Hs Hx Hi).
    split; intros Hp; rewrite Hp; reflexivity.
  - rewrite (@main_narrated E m h st st1 st2 st3 sql qr answer r rows
             H Hg Hs Hx Hi).
    split; intros Hp; rewrite Hp; reflexivity.
Qed.

Lemma narrated_answer_witness :
  let q := py "How many trucks need maintenance?" in
  let sql := py "SELECT COUNT(*) as count FROM t" in
  let qr := results_header 1 ++ py "count: 7" ++ [nl] in
  (let st1 := snd (Main.generate_sql_query healthy q fresh) in
   let st2 := snd (Main.execute_sql_query healthy sql st1) in
   let st3 := snd (Main.interpret_sql_results healthy q sql qr st2) in
   Main.chat_orchestrator healthy q [] fleet_manager_mode fresh
   = ([Main.analyzing_question; Main.executing_query sql;
       Main.analyzing_results; py "Seven trucks need maintenance."],
      Ret tt,
      {| current_chat :=
           current_chat st3
           ++ [{| message := q;
                  response := py "Seven trucks need maintenance." |}];
         log := log st3 |}))
  /\ (let st1 := snd (App.generate_sql_query garbled q fresh) in
      let st2 := snd (App.execute_sql_query garbled sql st1) in
      let st3 := snd (App.interpret_sql_results garbled q sql qr st2) in
      let error_msg :=
        App.fleet_error
          (encode_error (App.complete_response sql lone_surrogate)) in
      App.chat_orchestrator garbled q [] fleet_manager_mode fresh
      = ([error_msg], Ret tt,
         {| current_chat :=
              current_chat st3 ++ [{| message := q; response := error_msg |}];
            log := log st3 |})).
Proof.
  intros q sql qr. split.
  - intros st1 st2 st3.
    apply (proj2 (@narrated_answer healthy q [] fresh st1 st2 st3 sql qr
                    (py "Seven trucks need maintenance.") [py "7"] []
                    eq_refl ltac:(discriminate)));
      reflexivity.
  - intros st1 st2 st3.
    apply (proj1 (@narrated_answer garbled q [] fresh st1 st2 st3 sql qr
                    lone_surrogate [py "7"] []
                    eq_refl ltac:(discriminate)));
      reflexivity.
Defined.

Lemma format_results_same (columns : list str) (results : list row) :
  length results <= 50 ->
  App.format_results columns results = Main.format_results columns results.
Proof.
  intros Hn. unfold App.format_results, Main.format_results.
  destruct results as [|r rs]; [reflexivity|].
  destruct (Nat.eqb (length (r :: rs)) 1 && Nat.eqb (length columns) 1);
    [reflexivity|].
  cbv zeta.
  rewrite (Nat.min_r 50 _ Hn), firstn_all, Nat.ltb_irrefl.
  rewrite (@firstn_covers row 100 (r :: rs)) by lia.
  destruct (Nat.ltb_spec 100 (length (r :: rs))) as [H|_];
    [lia | reflexivity].
Qed.

(** With closes that return and no more than 50 rows fetched, the two
    executors cannot be told apart: same value returned, same state. *)
Theorem executors_agree (E : environment) (sql : str) (st : state) :
  (forall l, db_cursor_close E l = Ret tt) ->
  (forall l, db_connection_close E l = Ret tt) ->
  (forall l results, db_fetchall E l = Ret results -> length results <= 50) ->
  App.execute_sql_query E sql st = Main.execute_sql_query E sql st.
Proof.
  intros Hcc Hnc Hrows.
  unfold App.execute_sql_query, App.query, Main.execute_sql_query, Main.query.
  run. destruct st as [chat l]; simpl.
  destruct (db_connect E l); simpl; [|reflexivity].
  destruct (db_cursor E _); simpl; [|now rewrite Hnc].
  destruct (db_execute E _ sql); simpl; [|now rewrite Hcc, Hnc].
  destruct (db_fetchall E _) as [results|] eqn:Hf; simpl;
    [|now rewrite Hcc, Hnc].
  destruct (db_description E _) as [columns|]; simpl;
    [|now rewrite Hcc, Hnc].
  rewrite <- (@format_results_same columns results (Hrows _ _ Hf)).
  destruct (App.format_results columns results); simpl;
    now rewrite Hcc, Hnc.
Qed.

Lemma executors_agree_witness :
  App.execute_sql_query healthy (py "SELECT 1") fresh
  = Main.execute_sql_query healthy (py "SELECT 1") fresh.
Proof.
  apply executors_agree; [reflexivity | reflexivity |].
  intros l results H. inversion H. simpl. lia.
Defined.
